(** * SANKEY licence decoder: a shallow embedding of
      [native/sankey-decode/src/SankeyDecoder.cpp] and the properties of its
      verification protocol.

    The decoder checks an offline licence envelope
    [IV (16) || HMAC-SHA-256 tag (32) || AES-256-CBC ciphertext], bound to an
    account id, and exposes the decrypted JSON payload through typed getters
    gated by the [isVerified_] flag.

    Layout of the development:
    - machine integers, bytes and C strings;
    - the [nlohmann::json] value model used by the getters;
    - [std::get_time] / [_mkgmtime] and [parseISODateTime], and [std::stoi];
    - the platform services ([Platform]) the decoder calls into;
    - the decoder object, the [verify] method written in a small
      state-and-early-return monad that also records what it does, the
      getters and the exported C functions;
    - a small platform and sample licences to run the decoder on;
    - the properties. *)

From Stdlib Require Import ZArith List Bool String Ascii Lia Sorted.
From Stdlib Require Import Strings.Byte.
From Stdlib Require Import Floats.PrimFloat Floats.SpecFloat Floats.FloatOps.
Import ListNotations.

#[local] Set Warnings "-register-all".

Local Open Scope string_scope.
Local Open Scope Z_scope.

(* ------------------------------------------------------------------ *)
(** ** Machine integers *)

Module MachineInt.

(** Two's-complement reduction of [z] to a signed [w]-bit integer, the
    effect of [static_cast] to a narrower signed type on the target. *)
Definition wrap_signed (w : Z) (z : Z) : Z :=
  (z + 2 ^ (w - 1)) mod 2 ^ w - 2 ^ (w - 1).

(** [int] and [long] are both 32 bits wide on the Windows targets this
    library is built for (LLP64); [time_t] is 64 bits wide. *)
Definition to_int (z : Z) : Z := wrap_signed 32 z.
Definition to_long (z : Z) : Z := wrap_signed 32 z.

Definition INT_MIN : Z := - 2 ^ 31.
Definition INT_MAX : Z := 2 ^ 31 - 1.

End MachineInt.
Import MachineInt.

(* ------------------------------------------------------------------ *)
(** ** Bytes and C strings *)

Definition bytes : Type := list byte.

(** A [const char*] argument: [None] is the null pointer, [Some s] a
    NUL-terminated string with contents [s]. *)
Definition cstr : Type := option string.

Definition byte_val (b : byte) : Z := Z.of_N (Byte.to_N b).

(** [memcmp(a, b, n)]: the difference of the first pair of bytes (read as
    [unsigned char]) that differ among the first [n], or 0.  Both buffers of
    the only call in [verify] hold 32 bytes, so the clauses for exhausted
    buffers are never reached there. *)
Fixpoint memcmp (a b : bytes) (n : nat) {struct n} : Z :=
  match n with
  | O => 0
  | S n' =>
      match a, b with
      | x :: a', y :: b' =>
          if Byte.eqb x y then memcmp a' b' n' else byte_val x - byte_val y
      | _, _ => 0
      end
  end.

(** [v.resize(n)] on a fresh vector followed by a write of [src] at its start
    that never grows it: the first [n] bytes of [src], zero-filled. *)
Definition fill_resized (n : nat) (src : bytes) : bytes :=
  firstn n (src ++ repeat x00 n).

(** The bytes of a C string, as [(unsigned char* )s .. s + strlen(s)]. *)
Definition cstr_bytes (s : string) : bytes := list_byte_of_string s.

(* ------------------------------------------------------------------ *)
(** ** JSON values ([nlohmann::json]) *)

(** The value kinds of [nlohmann::basic_json].  An object is a
    [std::map<std::string, json>]; it is kept here as an association list
    read by first match, which is what a map without duplicate keys gives. *)
Inductive json : Type :=
| Jnull
| Jboolean (b : bool)
| Jnumber_integer (z : Z)
| Jnumber_unsigned (z : Z)
| Jnumber_float (f : float)
| Jstring (s : string)
| Jarray (l : list json)
| Jobject (m : list (string * json)).

Module Json.

Fixpoint assoc (key : string) (m : list (string * json)) : option json :=
  match m with
  | [] => None
  | (k, v) :: m' => if String.eqb k key then Some v else assoc key m'
  end.

(** [j.contains(key)]: false on anything that is not an object. *)
Definition contains (j : json) (key : string) : bool :=
  match j with
  | Jobject m => match assoc key m with Some _ => true | None => false end
  | _ => false
  end.

(** [j[key]] as it is used in the decoder, always under a successful
    [contains] test, so that the inserting behaviour of [operator[]] never
    shows. *)
Definition at_key (j : json) (key : string) : option json :=
  match j with
  | Jobject m => assoc key m
  | _ => None
  end.

Definition is_string (j : json) : bool :=
  match j with Jstring _ => true | _ => false end.
Definition is_boolean (j : json) : bool :=
  match j with Jboolean _ => true | _ => false end.
Definition is_number_integer (j : json) : bool :=
  match j with Jnumber_integer _ | Jnumber_unsigned _ => true | _ => false end.
Definition is_number (j : json) : bool :=
  match j with
  | Jnumber_integer _ | Jnumber_unsigned _ | Jnumber_float _ => true
  | _ => false
  end.

(** [j.clear()]: the value keeps its kind and becomes the empty value of
    that kind. *)
Definition clear (j : json) : json :=
  match j with
  | Jnull => Jnull
  | Jboolean _ => Jboolean false
  | Jnumber_integer _ => Jnumber_integer 0
  | Jnumber_unsigned _ => Jnumber_unsigned 0
  | Jnumber_float _ => Jnumber_float PrimFloat.zero
  | Jstring _ => Jstring ""
  | Jarray _ => Jarray []
  | Jobject _ => Jobject []
  end.

(** What [clear] is documented to leave behind: null, [false], 0, 0.0, the
    empty string, an array without elements or an object without
    members. *)
Definition cleared (j : json) : Prop :=
  match j with
  | Jnull => True
  | Jboolean b => b = false
  | Jnumber_integer z | Jnumber_unsigned z => z = 0
  | Jnumber_float f => f = PrimFloat.zero
  | Jstring s => s = ""
  | Jarray l => l = []
  | Jobject m => m = []
  end.

(** [static_cast<double>] of an integer: round to nearest even. *)
Definition double_of_Z (z : Z) : float :=
  SF2Prim (binary_normalize prec emax z 0 false).

(** [j != 0] for a number [j]: the comparison is made in the kind of the
    left operand. *)
Definition number_ne_zero (j : json) : bool :=
  match j with
  | Jnumber_integer z | Jnumber_unsigned z => negb (z =? 0)
  | Jnumber_float f => negb (PrimFloat.eqb f PrimFloat.zero)
  | _ => true
  end.

End Json.

(* ------------------------------------------------------------------ *)
(** ** The date parser *)

(** [std::tm], restricted to the fields [get_time] fills for the format
    used here and [_mkgmtime] reads. *)
Record tm : Type := mk_tm
  { tm_sec : Z; tm_min : Z; tm_hour : Z;
    tm_mday : Z; tm_mon : Z; tm_year : Z }.

Module GetTime.

Definition is_digit (c : ascii) : bool :=
  (48 <=? Z.of_nat (nat_of_ascii c)) && (Z.of_nat (nat_of_ascii c) <=? 57).

Definition digit_val (c : ascii) : Z := Z.of_nat (nat_of_ascii c) - 48.

(** Reads at most [width] decimal digits: the value read so far, how many
    digits were taken, and the rest of the input. *)
Fixpoint read_digits (width : nat) (acc : Z) (cnt : nat) (s : string)
  : Z * nat * string :=
  match width, s with
  | S w, String c s' =>
      if is_digit c then read_digits w (acc * 10 + digit_val c) (S cnt) s'
      else (acc, cnt, s)
  | _, _ => (acc, cnt, s)
  end.

(** A numeric conversion of [std::get_time]: a decimal number of at most
    [width] digits (leading zeros permitted but not required) whose value
    lies in [lo, hi]; anything else sets [failbit]. *)
Definition get_int (width : nat) (lo hi : Z) (s : string)
  : option (Z * string) :=
  let '(v, cnt, rest) := read_digits width 0 0 s in
  if Nat.eqb cnt 0 then None
  else if (lo <=? v) && (v <=? hi) then Some (v, rest)
  else None.

(** [std::isspace] in the classic locale: what the stream sentry built by
    [ss >> ...] skips before anything is read. *)
Definition is_space (c : ascii) : bool :=
  let n := Z.of_nat (nat_of_ascii c) in
  (n =? 32) || ((9 <=? n) && (n <=? 13)).

Fixpoint skip_ws (s : string) : string :=
  match s with
  | String c s' => if is_space c then skip_ws s' else s
  | EmptyString => s
  end.

(** [std::tolower] in the classic locale. *)
Definition to_lower (c : ascii) : ascii :=
  let n := nat_of_ascii c in
  if (Nat.leb 65 n && Nat.leb n 90)%bool then ascii_of_nat (n + 32) else c.

(** An ordinary character of the format: the next input character must be
    that character, compared without regard to case; at the end of the
    input the match fails. *)
Definition get_lit (c : ascii) (s : string) : option string :=
  match s with
  | String c' s' => if Ascii.eqb (to_lower c) (to_lower c') then Some s' else None
  | EmptyString => None
  end.

(** After a conversion: when it used up the input the stream has [eofbit]
    and [get] stops there, leaving the fields it had not reached as they
    were and setting no [failbit]; otherwise the format goes on. *)
Definition more (t : tm) (s : string) (k : option (tm * string))
  : option (tm * string) :=
  match s with
  | EmptyString => Some (t, s)
  | String _ _ => k
  end.

Definition bind {A B : Type} (x : option A) (f : A -> option B) : option B :=
  match x with Some a => f a | None => None end.

Notation "' p <- x ;; k" := (bind x (fun p => k))
  (at level 61, p pattern, x at next level, right associativity).
Notation "r <- x ;; k" := (bind x (fun r => k))
  (at level 61, x at next level, right associativity).

(** [ss >> std::get_time(&tm, "%Y-%m-%dT%H:%M:%S")] on a fresh stream over
    [s], with [tm] zero-initialised: [None] when [ss.fail()] holds
    afterwards, otherwise the filled [tm] and the unread rest of the
    stream.  The sentry skips leading white space first (on an input it
    exhausts, the first conversion fails).  Reading stops after the
    seconds, or after an earlier conversion that reached the end of the
    input; what follows the seconds is left in the stream. *)
Definition get_time (s : string) : option (tm * string) :=
  let s := skip_ws s in
  '(Y, s) <- get_int 4 0 9999 s ;;
  more (mk_tm 0 0 0 0 0 (Y - 1900)) s (
  s <- get_lit "-" s ;;
  '(m, s) <- get_int 2 1 12 s ;;
  more (mk_tm 0 0 0 0 (m - 1) (Y - 1900)) s (
  s <- get_lit "-" s ;;
  '(d, s) <- get_int 2 1 31 s ;;
  more (mk_tm 0 0 0 d (m - 1) (Y - 1900)) s (
  s <- get_lit "T" s ;;
  '(H, s) <- get_int 2 0 23 s ;;
  more (mk_tm 0 0 H d (m - 1) (Y - 1900)) s (
  s <- get_lit ":" s ;;
  '(M, s) <- get_int 2 0 59 s ;;
  more (mk_tm 0 M H d (m - 1) (Y - 1900)) s (
  s <- get_lit ":" s ;;
  '(sec, s) <- get_int 2 0 60 s ;;
  Some (mk_tm sec M H d (m - 1) (Y - 1900), s)))))).

End GetTime.

Module MkGmTime.

Definition is_leap (y : Z) : bool :=
  ((y mod 4 =? 0) && negb (y mod 100 =? 0)) || (y mod 400 =? 0).

(** Leap years in the years [1 .. y]. *)
Definition leaps_through (y : Z) : Z := y / 4 - y / 100 + y / 400.

(** Days from 1970-01-01 to the first of January of year [y]. *)
Definition days_before_year (y : Z) : Z :=
  365 * (y - 1970) + (leaps_through (y - 1) - leaps_through 1969).

(** Days from the first of January to the first of month [mon] (0-based)
    in a common year. *)
Definition days_before_month_common (mon : Z) : Z :=
  nth (Z.to_nat mon) [0; 31; 59; 90; 120; 151; 181; 212; 243; 273; 304; 334] 0.

Definition days_before_month (y mon : Z) : Z :=
  days_before_month_common mon + (if is_leap y && (2 <=? mon) then 1 else 0).

(** Seconds from the epoch to the broken-down UTC time [t]. *)
Definition epoch_seconds (t : tm) : Z :=
  let y := tm_year t + 1900 in
  let days := days_before_year y + days_before_month y (tm_mon t)
              + (tm_mday t - 1) in
  ((days * 24 + tm_hour t) * 60 + tm_min t) * 60 + tm_sec t.

(** 3000-12-31T23:59:59Z, the last instant [_mkgmtime64] converts. *)
Definition MAX_TIME64 : Z := 32535215999.

(** [_mkgmtime]: the broken-down time read as UTC, with a day or second
    past the end of its unit carried over; -1 for an instant before the
    epoch or after [MAX_TIME64]. *)
Definition _mkgmtime (t : tm) : Z :=
  let r := epoch_seconds t in
  if (0 <=? r) && (r <=? MAX_TIME64) then r else -1.

End MkGmTime.

(** [CSankeyLicenseDecoder::parseISODateTime]: 0 when the stream failed,
    otherwise the [time_t] of [_mkgmtime] cast to [long]. *)
Definition parseISODateTime (isoString : string) : Z :=
  match GetTime.get_time isoString with
  | None => 0
  | Some (t, _) => to_long (MkGmTime._mkgmtime t)
  end.


(* ------------------------------------------------------------------ *)
(** ** [std::stoi] *)

Module StdString.

Definition isspace (c : ascii) : bool :=
  let n := Z.of_nat (nat_of_ascii c) in
  (n =? 32) || ((9 <=? n) && (n <=? 13)).

Fixpoint skip_space (s : string) : string :=
  match s with
  | String c s' => if isspace c then skip_space s' else s
  | EmptyString => s
  end.

(** All leading decimal digits of [s]: their value and how many there
    were. *)
Fixpoint digits (acc : Z) (cnt : nat) (s : string) : Z * nat :=
  match s with
  | String c s' =>
      if GetTime.is_digit c
      then digits (acc * 10 + GetTime.digit_val c) (S cnt) s'
      else (acc, cnt)
  | EmptyString => (acc, cnt)
  end.

(** [std::stoi(str)]: leading white space, an optional sign, decimal
    digits; trailing characters are ignored.  [None] stands for the two
    exceptions it throws, [std::invalid_argument] (no digit) and
    [std::out_of_range] (value outside [int]). *)
Definition stoi (str : string) : option Z :=
  let s := skip_space str in
  let '(neg, s) :=
    match s with
    | String "-" s' => (true, s')
    | String "+" s' => (false, s')
    | _ => (false, s)
    end in
  let '(v, cnt) := digits 0 0 s in
  if Nat.eqb cnt 0 then None
  else
    let v := if neg then - v else v in
    if (INT_MIN <=? v) && (v <=? INT_MAX) then Some v else None.

End StdString.

(* ------------------------------------------------------------------ *)
(** ** Platform services *)

(** What the decoder obtains from outside this repository: the Windows
    CryptoAPI, the JSON parser, the clock and [std::stod].  A failure of a
    service ([FALSE], an exception) is [None]. *)
Record Platform : Type := mk_Platform
  { (** [CryptStringToBinaryA(.., CRYPT_STRING_BASE64, ..)] *)
    crypt_string_to_binary : string -> option bytes;
    (** the [CALG_HMAC] / [CALG_SHA_256] hash of [data] under [key], read
        back with [CryptGetHashParam(HP_HASHVAL)] *)
    crypt_hmac_sha256 : forall (key data : bytes), option bytes;
    (** [CryptDecrypt] under a [CALG_AES_256] key with [KP_IV] set, final
        block, padding removed *)
    crypt_aes256_cbc_decrypt : forall (key iv cipher : bytes), option bytes;
    (** [nlohmann::json::parse] *)
    json_parse : string -> option json;
    (** [time(nullptr)] *)
    time_now : Z;
    (** [std::stod] *)
    stod : string -> option float }.

(* ------------------------------------------------------------------ *)
(** ** The decoder object *)

(** [enum LicenseStatus] *)
Inductive LicenseStatus : Type :=
| Valid | Expired | Invalid | Tampered | KeyError | DecryptionFailed
| ParseError.

Definition LicenseStatus_code (s : LicenseStatus) : Z :=
  match s with
  | Valid => 0 | Expired => 1 | Invalid => 2 | Tampered => 3
  | KeyError => 4 | DecryptionFailed => 5 | ParseError => 6
  end.

(** [class CSankeyLicenseDecoder] *)
Record CSankeyLicenseDecoder : Type := mk_decoder
  { payload_ : json;
    isVerified_ : bool;
    lastStringResult_ : string }.

(** The constructor: [payload_] default-constructed (null),
    [isVerified_(false)]. *)
Definition new_decoder : CSankeyLicenseDecoder := mk_decoder Jnull false "".

(** What one call of [verify] does, in the order it does it: the writes to
    the two members and the calls that leave the method. *)
Inductive action : Type :=
| Set_isVerified (b : bool)
| Clear_payload
| Assign_payload (j : json)
| Call_base64_decode (input : string)
| Call_hmac_sha256 (key data : bytes)
| Call_memcmp (a b : bytes)
| Call_aes_cbc_decrypt (key iv cipher : bytes)
| Call_json_parse (text : string)
| Call_parseISODateTime (s : string)
| Call_time.

Module VerifyM.

(** The object the method runs on and the actions taken so far (oldest
    first). *)
Record world : Type := mk_world
  { this : CSankeyLicenseDecoder; trace : list action }.

(** A computation either goes on with a value or leaves [verify] with a
    status ([return st;]). *)
Definition M (A : Type) : Type := world -> (A + LicenseStatus) * world.

Definition ret {A : Type} (a : A) : M A := fun w => (inl a, w).
Definition Return {A : Type} (st : LicenseStatus) : M A :=
  fun w => (inr st, w).
Definition bind {A B : Type} (c : M A) (k : A -> M B) : M B :=
  fun w =>
    match c w with
    | (inl a, w') => k a w'
    | (inr st, w') => (inr st, w')
    end.

Definition log (a : action) : M unit :=
  fun w => (inl tt, mk_world (this w) (trace w ++ [a])).
Definition modify (f : CSankeyLicenseDecoder -> CSankeyLicenseDecoder)
  : M unit :=
  fun w => (inl tt, mk_world (f (this w)) (trace w)).
Definition get_payload : M json := fun w => (inl (payload_ (this w)), w).

(** [if (!ok) return st;] for a call with an out-parameter. *)
Definition or_return {A : Type} (r : option A) (st : LicenseStatus) : M A :=
  match r with Some a => ret a | None => Return st end.

(** [if (b) return st;] *)
Definition return_if (b : bool) (st : LicenseStatus) : M unit :=
  if b then Return st else ret tt.

End VerifyM.
Import VerifyM.

Declare Scope verify_scope.
Delimit Scope verify_scope with verify.
Notation "x <- c ;; k" := (VerifyM.bind c (fun x => k))
  (at level 61, c at next level, right associativity) : verify_scope.
Notation "c ;; k" := (VerifyM.bind c (fun _ => k))
  (at level 61, right associativity) : verify_scope.

(* ------------------------------------------------------------------ *)
(** ** The envelope *)

(** The three vectors [verify] cuts out of the decoded licence:
    [iv(begin, begin + 16)], [hmac(begin + 16, begin + 48)] and
    [cipher(begin + 48, end)]. *)
Definition envelope_iv (licenseBin : bytes) : bytes := firstn 16 licenseBin.
Definition envelope_hmac (licenseBin : bytes) : bytes :=
  firstn 32 (skipn 16 licenseBin).
Definition envelope_cipher (licenseBin : bytes) : bytes := skipn 48 licenseBin.

(** [hmacInput], built by three [insert]s at its end. *)
Definition hmac_input (licenseBin : bytes) (accountId : string) : bytes :=
  (envelope_iv licenseBin ++ envelope_cipher licenseBin
   ++ cstr_bytes accountId)%list.

(* ------------------------------------------------------------------ *)
(** ** The methods *)

Section Decoder.

Variable P : Platform.

Local Open Scope verify_scope.

(** [base64_decode]: a first call asks for the length, a second one fills
    the vector; either failing gives [false]. *)
Definition base64_decode (input : string) : M (option bytes) :=
  log (Call_base64_decode input) ;;
  ret (crypt_string_to_binary P input).

(** [hmac_sha256]: [mac] is resized to 32 bytes and the hash value is
    written into it; [false] when the provider, the key import, the hash
    object or the read-back fails. *)
Definition hmac_sha256 (key data : bytes) : M (option bytes) :=
  log (Call_hmac_sha256 key data) ;;
  ret (option_map (fill_resized 32) (crypt_hmac_sha256 P key data)).

(** [aes_cbc_decrypt] *)
Definition aes_cbc_decrypt (key iv cipher : bytes) : M (option bytes) :=
  log (Call_aes_cbc_decrypt key iv cipher) ;;
  ret (crypt_aes256_cbc_decrypt P key iv cipher).

(** The [try { payload_ = nlohmann::json::parse(payloadStr); } catch]
    block: the member is assigned only when the parse does not throw. *)
Definition parse_payload (payloadStr : string) : M (option unit) :=
  log (Call_json_parse payloadStr) ;;
  match json_parse P payloadStr with
  | Some j =>
      log (Assign_payload j) ;;
      modify (fun d => mk_decoder j (isVerified_ d) (lastStringResult_ d)) ;;
      ret (Some tt)
  | None => ret None
  end.

Definition set_isVerified (b : bool) : M unit :=
  log (Set_isVerified b) ;;
  modify (fun d => mk_decoder (payload_ d) b (lastStringResult_ d)).

Definition clear_payload : M unit :=
  log Clear_payload ;;
  modify (fun d =>
    mk_decoder (Json.clear (payload_ d)) (isVerified_ d) (lastStringResult_ d)).

(** The string held under [key] when the payload has that key and the
    value is a string: the test
    [payload_.contains(key) && payload_[key].is_string()]. *)
Definition string_at (j : json) (key : string) : option string :=
  match Json.at_key j key with
  | Some (Jstring s) => Some s
  | _ => None
  end.

(** The expiry check at the end of [verify]. *)
Definition check_expiry : M unit :=
  payload <- get_payload ;;
  match string_at payload "expiry" with
  | Some expiryStr =>
      log (Call_parseISODateTime expiryStr) ;;
      let expiryTimestamp := parseISODateTime expiryStr in
      if 0 <? expiryTimestamp then
        log Call_time ;;
        let currentTime := time_now P in
        return_if (expiryTimestamp <? currentTime) Expired
      else ret tt
  | None => ret tt
  end.

(** [CSankeyLicenseDecoder::verify] *)
Definition verify_body (masterKeyB64 licenseB64 accountId : cstr)
  : M LicenseStatus :=
  set_isVerified false ;;
  clear_payload ;;
  match masterKeyB64, licenseB64, accountId with
  | Some masterKeyB64, Some licenseB64, Some accountId =>
      (* Decode master key *)
      r <- base64_decode masterKeyB64 ;;
      masterKey <- or_return r KeyError ;;
      return_if (negb (Nat.eqb (List.length masterKey) 32)) KeyError ;;
      (* Decode license *)
      r <- base64_decode licenseB64 ;;
      licenseBin <- or_return r Invalid ;;
      return_if (Nat.ltb (List.length licenseBin) 48) Invalid ;;
      (* Extract components *)
      let iv := envelope_iv licenseBin in
      let hmac := envelope_hmac licenseBin in
      let cipher := envelope_cipher licenseBin in
      (* Verify HMAC *)
      let hmacInput := hmac_input licenseBin accountId in
      r <- hmac_sha256 masterKey hmacInput ;;
      mac <- or_return r DecryptionFailed ;;
      log (Call_memcmp mac hmac) ;;
      return_if (negb (memcmp mac hmac 32 =? 0)) Tampered ;;
      (* Decrypt *)
      r <- aes_cbc_decrypt masterKey iv cipher ;;
      plain <- or_return r DecryptionFailed ;;
      (* Parse JSON *)
      r <- parse_payload (string_of_list_byte plain) ;;
      or_return r ParseError ;;
      (* Check expiry if present *)
      check_expiry ;;
      set_isVerified true ;;
      ret Valid
  | _, _, _ => Return Invalid
  end.

(** One call [d.verify(masterKeyB64, licenseB64, accountId)]: the status
    returned, the object afterwards and what the call did. *)
Definition verify (d : CSankeyLicenseDecoder)
    (masterKeyB64 licenseB64 accountId : cstr)
  : LicenseStatus * CSankeyLicenseDecoder * list action :=
  match verify_body masterKeyB64 licenseB64 accountId (mk_world d []) with
  | (inl st, w) | (inr st, w) => (st, this w, trace w)
  end.

Definition verify_status d mk lic acc : LicenseStatus :=
  fst (fst (verify d mk lic acc)).
Definition verify_object d mk lic acc : CSankeyLicenseDecoder :=
  snd (fst (verify d mk lic acc)).
Definition verify_trace d mk lic acc : list action :=
  snd (verify d mk lic acc).

(** *** Getters *)

(** [std::string(defaultValue ? defaultValue : "")] *)
Definition default_string (defaultValue : cstr) : string :=
  match defaultValue with Some s => s | None => "" end.

(** [getValue] *)
Definition getValue (d : CSankeyLicenseDecoder) (key defaultValue : cstr)
  : string :=
  match isVerified_ d, key with
  | true, Some key =>
      match string_at (payload_ d) key with
      | Some s => s
      | None => default_string defaultValue
      end
  | _, _ => default_string defaultValue
  end.

(** [getValueAsInt]; both exceptions of [std::stoi] end in the [catch]
    and fall through to the default. *)
Definition getValueAsInt (d : CSankeyLicenseDecoder) (key : cstr)
    (defaultValue : Z) : Z :=
  match isVerified_ d, key with
  | true, Some key =>
      match Json.at_key (payload_ d) key with
      | Some (Jnumber_integer z) | Some (Jnumber_unsigned z) => to_int z
      | Some (Jstring str) =>
          match StdString.stoi str with
          | Some v => v
          | None => defaultValue
          end
      | _ => defaultValue
      end
  | _, _ => defaultValue
  end.

(** [getValueAsBool] *)
Definition getValueAsBool (d : CSankeyLicenseDecoder) (key : cstr)
    (defaultValue : bool) : bool :=
  match isVerified_ d, key with
  | true, Some key =>
      match Json.at_key (payload_ d) key with
      | Some (Jboolean b) => b
      | Some (Jstring str) =>
          String.eqb str "true" || String.eqb str "1" || String.eqb str "yes"
      | Some (Jnumber_integer _ as v) | Some (Jnumber_unsigned _ as v)
      | Some (Jnumber_float _ as v) => Json.number_ne_zero v
      | _ => defaultValue
      end
  | _, _ => defaultValue
  end.

(** [getValueAsDouble] *)
Definition getValueAsDouble (d : CSankeyLicenseDecoder) (key : cstr)
    (defaultValue : float) : float :=
  match isVerified_ d, key with
  | true, Some key =>
      match Json.at_key (payload_ d) key with
      | Some (Jnumber_integer z) | Some (Jnumber_unsigned z) =>
          Json.double_of_Z z
      | Some (Jnumber_float f) => f
      | Some (Jstring str) =>
          match stod P str with
          | Some v => v
          | None => defaultValue
          end
      | _ => defaultValue
      end
  | _, _ => defaultValue
  end.

(** [getValueAsDateTime] *)
Definition getValueAsDateTime (d : CSankeyLicenseDecoder) (key : cstr)
    (defaultValue : Z) : Z :=
  match isVerified_ d, key with
  | true, Some key =>
      match string_at (payload_ d) key with
      | Some dateStr =>
          let timestamp := parseISODateTime dateStr in
          if 0 <? timestamp then timestamp else defaultValue
      | None => defaultValue
      end
  | _, _ => defaultValue
  end.

(** [hasKey] *)
Definition hasKey (d : CSankeyLicenseDecoder) (key : cstr) : bool :=
  match isVerified_ d, key with
  | true, Some key => Json.contains (payload_ d) key
  | _, _ => false
  end.

(** *** The stages of [verify]

    What it takes for a call with three non-null arguments to get past each
    of its checks. *)

(** Both base64 decodes succeed, the key has 32 bytes and the licence at
    least 48. *)
Definition decodes (masterKeyB64 licenseB64 : string)
    (masterKey licenseBin : bytes) : Prop :=
  crypt_string_to_binary P masterKeyB64 = Some masterKey /\
  List.length masterKey = 32%nat /\
  crypt_string_to_binary P licenseB64 = Some licenseBin /\
  (48 <= List.length licenseBin)%nat.

(** The tag is computed and [memcmp] finds it equal to the stored one. *)
Definition mac_passes (masterKey licenseBin : bytes) (accountId : string)
  : Prop :=
  exists tag,
    crypt_hmac_sha256 P masterKey (hmac_input licenseBin accountId) = Some tag /\
    memcmp (fill_resized 32 tag) (envelope_hmac licenseBin) 32 = 0.

(** The call gets as far as the expiry check, with [j] the parsed
    payload. *)
Definition reaches_expiry_check (masterKeyB64 licenseB64 accountId : string)
    (j : json) : Prop :=
  exists masterKey licenseBin plain,
    decodes masterKeyB64 licenseB64 masterKey licenseBin /\
    mac_passes masterKey licenseBin accountId /\
    crypt_aes256_cbc_decrypt P masterKey (envelope_iv licenseBin)
      (envelope_cipher licenseBin) = Some plain /\
    json_parse P (string_of_list_byte plain) = Some j.

(** The status of a call that gets to the expiry check with payload [j]. *)
Definition expired_at (j : json) : bool :=
  match string_at j "expiry" with
  | Some s => (0 <? parseISODateTime s) && (parseISODateTime s <? time_now P)
  | None => false
  end.

End Decoder.

(** *** Vocabulary for the statements *)

(** The comparison passed: the arguments are there, both decodes succeeded,
    and the tag computed with the key over [IV || ciphertext || accountId]
    is, resized to 32 bytes, the tag stored in the envelope. *)
Definition tag_verified (P : Platform) (mk lic acc : cstr) (key blob : bytes)
  : Prop :=
  exists m l a tag,
    mk = Some m /\ lic = Some l /\ acc = Some a /\
    decodes P m l key blob /\
    crypt_hmac_sha256 P key (hmac_input blob a) = Some tag /\
    fill_resized 32 tag = envelope_hmac blob.


(** The protocol position of an action: the order in which [verify] is
    meant to go through them. *)
Definition rank (a : action) : Z :=
  match a with
  | Set_isVerified false => 0
  | Clear_payload => 0
  | Call_base64_decode _ => 1
  | Call_hmac_sha256 _ _ => 2
  | Call_memcmp _ _ => 3
  | Call_aes_cbc_decrypt _ _ _ => 4
  | Call_json_parse _ => 5
  | Assign_payload _ => 6
  | Call_parseISODateTime _ => 7
  | Call_time => 8
  | Set_isVerified true => 9
  end.

(** The calls into HMAC and AES. *)
Definition is_crypto_call (a : action) : bool :=
  match a with
  | Call_hmac_sha256 _ _ | Call_aes_cbc_decrypt _ _ _ => true
  | _ => false
  end.

(** The object as the first two statements of [verify] leave it. *)
Definition reset_object (d : CSankeyLicenseDecoder) : CSankeyLicenseDecoder :=
  mk_decoder (Json.clear (payload_ d)) false (lastStringResult_ d).

(** The platform [P] with its clock set to [now]. *)
Definition with_time (P : Platform) (now : Z) : Platform :=
  mk_Platform (crypt_string_to_binary P) (crypt_hmac_sha256 P)
    (crypt_aes256_cbc_decrypt P) (json_parse P) now (stod P).

(* ------------------------------------------------------------------ *)
(** ** The C interface *)

(** The exported functions take the object by pointer; [None] is a null
    handle.  Only [GetValue] writes to the object: it parks the string it
    returns in [lastStringResult_]. *)
Module CInterface.

Definition handle : Type := option CSankeyLicenseDecoder.

Definition Create : handle := Some new_decoder.

Definition Verify (P : Platform) (decoder : handle)
    (masterKeyB64 licenseB64 accountId : cstr) : Z * handle :=
  match decoder with
  | None => (LicenseStatus_code Invalid, None)
  | Some d =>
      (LicenseStatus_code (verify_status P d masterKeyB64 licenseB64 accountId),
       Some (verify_object P d masterKeyB64 licenseB64 accountId))
  end.

Definition GetValue (decoder : handle) (key defaultValue : cstr)
  : string * handle :=
  match decoder with
  | None => (default_string defaultValue, None)
  | Some d =>
      let r := getValue d key defaultValue in
      (r, Some (mk_decoder (payload_ d) (isVerified_ d) r))
  end.

Definition GetValueAsInt (decoder : handle) (key : cstr) (defaultValue : Z)
  : Z :=
  match decoder with
  | None => defaultValue
  | Some d => getValueAsInt d key defaultValue
  end.

Definition GetValueAsBool (decoder : handle) (key : cstr)
    (defaultValue : bool) : bool :=
  match decoder with
  | None => defaultValue
  | Some d => getValueAsBool d key defaultValue
  end.

Definition GetValueAsDouble (P : Platform) (decoder : handle) (key : cstr)
    (defaultValue : float) : float :=
  match decoder with
  | None => defaultValue
  | Some d => getValueAsDouble P d key defaultValue
  end.

Definition GetValueAsDateTime (decoder : handle) (key : cstr)
    (defaultValue : Z) : Z :=
  match decoder with
  | None => defaultValue
  | Some d => getValueAsDateTime d key defaultValue
  end.

Definition HasKey (decoder : handle) (key : cstr) : bool :=
  match decoder with
  | None => false
  | Some d => hasKey d key
  end.

End CInterface.

(* ------------------------------------------------------------------ *)
(** ** A small platform to run the decoder on *)

(** The theorems below hold for every [Platform].  To evaluate the decoder
    on concrete licences this module supplies one: a base64 decoder, a JSON
    reader for flat objects, and - in place of HMAC-SHA-256 and AES-256-CBC,
    which are not re-implemented here - a keyed checksum and an XOR cipher
    with PKCS#7 padding that have the same interface.  [seal] builds a
    licence for this platform the way the licence generator does for the
    real one. *)
Module Demo.

Definition byte_of_Z (z : Z) : byte :=
  match Byte.of_N (Z.to_N (z mod 256)) with Some b => b | None => x00 end.

Definition code (c : ascii) : Z := Z.of_nat (nat_of_ascii c).

(** *** base64 *)

Definition b64_val (c : ascii) : option Z :=
  let n := code c in
  if (65 <=? n) && (n <=? 90) then Some (n - 65)
  else if (97 <=? n) && (n <=? 122) then Some (n - 71)
  else if (48 <=? n) && (n <=? 57) then Some (n + 4)
  else if n =? 43 then Some 62
  else if n =? 47 then Some 63
  else None.

Definition quad (a b c d : Z) : bytes :=
  let n := ((a * 64 + b) * 64 + c) * 64 + d in
  [byte_of_Z (n / 65536); byte_of_Z (n / 256); byte_of_Z n].

Fixpoint b64_decode (l : list ascii) : option bytes :=
  match l with
  | [] => Some []
  | [a; b; "="%char; "="%char] =>
      match b64_val a, b64_val b with
      | Some a, Some b => Some (firstn 1 (quad a b 0 0))
      | _, _ => None
      end
  | [a; b; c; "="%char] =>
      match b64_val a, b64_val b, b64_val c with
      | Some a, Some b, Some c => Some (firstn 2 (quad a b c 0))
      | _, _, _ => None
      end
  | a :: b :: c :: d :: rest =>
      match b64_val a, b64_val b, b64_val c, b64_val d, b64_decode rest with
      | Some a, Some b, Some c, Some d, Some out =>
          Some (quad a b c d ++ out)%list
      | _, _, _, _, _ => None
      end
  | _ => None
  end.

Definition base64 (s : string) : option bytes :=
  b64_decode (list_ascii_of_string s).

(** *** keyed checksum, 32 bytes *)

Definition mix (h : Z) (b : byte) : Z :=
  (h * 16777619 + byte_val b + 1) mod 4294967296.

Definition checksum (key data : bytes) : option bytes :=
  let h := fold_left mix (key ++ x00 :: data)%list 2166136261 in
  Some (map (fun i => byte_of_Z ((h * (2 * i + 1) + i) / 4096))
            (map Z.of_nat (seq 0 32))).

(** *** XOR cipher with PKCS#7 padding *)

Definition xor_byte (a b : byte) : byte :=
  byte_of_Z (Z.lxor (byte_val a) (byte_val b)).

Fixpoint xor_stream (pad : bytes) (l : bytes) (i : nat) : bytes :=
  match l with
  | [] => []
  | x :: l' => xor_byte x (nth (i mod 16) pad x00) :: xor_stream pad l' (S i)
  end.

Definition pad_of (key iv : bytes) : bytes :=
  map (fun i => xor_byte (nth i key x00) (nth i iv x00)) (seq 0 16).

Definition unpad (l : bytes) : option bytes :=
  let n := Z.to_nat (byte_val (last l x00)) in
  if (Nat.leb 1 n && Nat.leb n 16 && Nat.leb n (List.length l))%bool then
    let body := firstn (List.length l - n) l in
    if forallb (Byte.eqb (last l x00)) (skipn (List.length l - n) l)
    then Some body else None
  else None.

Definition decrypt (key iv cipher : bytes) : option bytes :=
  if Nat.eqb (List.length cipher) 0
     || negb (Nat.eqb (List.length cipher mod 16) 0)
  then None
  else unpad (xor_stream (pad_of key iv) cipher 0).

(** *** JSON, flat objects and scalars *)

Definition dquote : ascii := "034"%char.

Fixpoint skip_ws (s : string) : string :=
  match s with
  | String c s' => if StdString.isspace c then skip_ws s' else s
  | EmptyString => s
  end.

(** The characters up to the closing quote; escapes are not read. *)
Fixpoint read_string (s : string) : option (string * string) :=
  match s with
  | String c s' =>
      if Ascii.eqb c dquote then Some (EmptyString, s')
      else if Ascii.eqb c "\"%char then None
      else match read_string s' with
           | Some (body, rest) => Some (String c body, rest)
           | None => None
           end
  | EmptyString => None
  end.

Fixpoint read_number (acc : Z) (s : string) : Z * string :=
  match s with
  | String c s' =>
      if GetTime.is_digit c
      then read_number (acc * 10 + GetTime.digit_val c) s'
      else (acc, s)
  | EmptyString => (acc, s)
  end.

Definition drop_prefix (p s : string) : option string :=
  if String.prefix p s
  then Some (String.substring (String.length p)
               (String.length s - String.length p) s)
  else None.

Definition read_scalar (s : string) : option (json * string) :=
  match s with
  | String c s' =>
      if Ascii.eqb c dquote then
        match read_string s' with
        | Some (body, rest) => Some (Jstring body, rest)
        | None => None
        end
      else if Ascii.eqb c "-"%char then
        match s' with
        | String d _ =>
            if GetTime.is_digit d
            then let '(v, rest) := read_number 0 s' in
                 Some (Jnumber_integer (- v), rest)
            else None
        | EmptyString => None
        end
      else if GetTime.is_digit c then
        let '(v, rest) := read_number 0 s in Some (Jnumber_unsigned v, rest)
      else
        match drop_prefix "true" s, drop_prefix "false" s,
              drop_prefix "null" s with
        | Some rest, _, _ => Some (Jboolean true, rest)
        | _, Some rest, _ => Some (Jboolean false, rest)
        | _, _, Some rest => Some (Jnull, rest)
        | _, _, _ => None
        end
  | EmptyString => None
  end.

(** Members [ "key" : scalar , ... ] up to the closing brace; a repeated
    key keeps its last value, as the map does. *)
Fixpoint read_members (fuel : nat) (s : string)
  : option (list (string * json) * string) :=
  match fuel with
  | O => None
  | S fuel' =>
      match skip_ws s with
      | String c s1 =>
          if Ascii.eqb c dquote then
            match read_string s1 with
            | Some (key, s2) =>
                match skip_ws s2 with
                | String ":" s3 =>
                    match read_scalar (skip_ws s3) with
                    | Some (v, s4) =>
                        match skip_ws s4 with
                        | String "," s5 =>
                            match read_members fuel' s5 with
                            | Some (m, rest) =>
                                Some (match Json.assoc key m with
                                      | Some _ => m
                                      | None => (key, v) :: m
                                      end, rest)
                            | None => None
                            end
                        | String "}" rest => Some ([(key, v)], rest)
                        | _ => None
                        end
                    | None => None
                    end
                | _ => None
                end
            | None => None
            end
          else None
      | EmptyString => None
      end
  end.

Definition parse (text : string) : option json :=
  let r :=
    match skip_ws text with
    | String "{" s =>
        match skip_ws s with
        | String "}" rest => Some (Jobject [], rest)
        | _ =>
            match read_members (String.length s) s with
            | Some (m, rest) => Some (Jobject m, rest)
            | None => None
            end
        end
    | s => read_scalar s
    end in
  match r with
  | Some (j, rest) =>
      match skip_ws rest with EmptyString => Some j | _ => None end
  | None => None
  end.

(** The clock stands at 2023-11-14T22:13:20Z. *)
Definition now : Z := 1700000000.

Definition platform : Platform :=
  mk_Platform base64 checksum decrypt parse now (fun _ => None).

(** *** Sealing a licence for this platform *)

Definition b64_char (v : Z) : ascii :=
  let n := if v <? 26 then v + 65
           else if v <? 52 then v + 71
           else if v <? 62 then v - 4
           else if v =? 62 then 43 else 47 in
  ascii_of_nat (Z.to_nat n).

Fixpoint b64_encode (l : bytes) : list ascii :=
  match l with
  | [] => []
  | [a] =>
      let n := byte_val a * 65536 in
      [b64_char (n / 262144); b64_char (n / 4096 mod 64); "="%char; "="%char]
  | [a; b] =>
      let n := byte_val a * 65536 + byte_val b * 256 in
      [b64_char (n / 262144); b64_char (n / 4096 mod 64);
       b64_char (n / 64 mod 64); "="%char]
  | a :: b :: c :: rest =>
      let n := byte_val a * 65536 + byte_val b * 256 + byte_val c in
      b64_char (n / 262144) :: b64_char (n / 4096 mod 64)
      :: b64_char (n / 64 mod 64) :: b64_char (n mod 64) :: b64_encode rest
  end.

Definition to_base64 (l : bytes) : string :=
  string_of_list_ascii (b64_encode l).

Definition pad (l : bytes) : bytes :=
  let n := (16 - List.length l mod 16)%nat in
  (l ++ repeat (byte_of_Z (Z.of_nat n)) n)%list.

Definition encrypt (key iv plain : bytes) : bytes :=
  xor_stream (pad_of key iv) (pad plain) 0.

(** [IV || tag over (IV || ciphertext || accountId) || ciphertext], in
    base64. *)
Definition seal (key iv : bytes) (text accountId : string) : string :=
  let cipher := encrypt key iv (list_byte_of_string text) in
  match checksum key (iv ++ cipher ++ cstr_bytes accountId)%list with
  | Some mac => to_base64 (iv ++ mac ++ cipher)%list
  | None => ""
  end.

(** The text of a flat JSON object whose values are all strings. *)
Definition object_text (members : list (string * string)) : string :=
  let q := String dquote "" in
  ("{" ++ String.concat ","
            (map (fun '(k, v) => q ++ k ++ q ++ ":" ++ q ++ v ++ q) members)
       ++ "}")%string.

(** *** Sample inputs *)

(** The key bytes 3, 10, 17, ... and the IV bytes 5, 16, 27, ... *)
Definition key_bytes : bytes :=
  map (fun i => byte_of_Z (Z.of_nat i * 7 + 3)) (seq 0 32).
Definition iv_bytes : bytes :=
  map (fun i => byte_of_Z (Z.of_nat i * 11 + 5)) (seq 0 16).

Definition masterKeyB64 : string :=
  "AwoRGB8mLTQ7QklQV15lbHN6gYiPlp2kq7K5wMfO1dw=".

(** 32 zero bytes: a key of the right length that sealed none of the
    licences below. *)
Definition otherKeyB64 : string :=
  "AAAAAAAAAAAAAAAAAAAAAAAAAAAAAAAAAAAAAAAAAAA=".

(** Licences for account 1234 under [key_bytes]; the payload has the
    members [accountId] and, except for the last, [expiry]. *)

(** expiry 1970-01-01T00:00:00Z *)
Definition license_epoch : string :=
  "BRAbJjE8R1JdaHN+iZSfqhdHd6bWBjZllcX0JFSEs+MTQnKi0gExYZDA8CBPf6/efThrXU11HwgSY14M5OjL9DUuKBIMfxIWD1hDDOToy/8xKicOHzdaVzIaChTu+sD2NkAoQyIWZmpqJjYi0sb2yg==".

(** expiry 1969-07-20T20:17:40Z *)
Definition license_1969 : string :=
  "BRAbJjE8R1JdaHN+iZSfqrEUd9s+oQRnyi2R9Fe6HYDkR6oNcNM2mv1gwyaJ7VCzfThrXU11HwgSY14M5OjL9DUuKBIMfxIWD1hDDOToy/8wIycOGTdYVjIYChTv/cDyNkAoQyIWZmpqJjYi0sb2yg==".

(** expiry 2001-09-09T01:46:40Z, before [now] *)
Definition license_2001 : string :=
  "BRAbJjE8R1JdaHN+iZSfquGlaCvvsnY5/cCDRwrOkVQY259iJumscDP3un1BBMiLfThrXU11HwgSY14M5OjL9DUuKBIMfxIWD1hDDOToyPY2KycOFzdaXzIaCxTq/MDyNkAoQyIWZmpqJjYi0sb2yg==".

(** expiry 2030-01-01T00:00:00Z, after [now] *)
Definition license_2030 : string :=
  "BRAbJjE8R1JdaHN+iZSfqtJ3HMFnDLFW+6BF6pA12n8kyW4TuF4DqE3ylzzhhyzRfThrXU11HwgSY14M5OjL9DUuKBIMfxIWD1hDDOToyPY1KicOHzdaVzIaChTu+sD2NkAoQyIWZmpqJjYi0sb2yg==".

(** no expiry; a member [eaName] instead *)
Definition license_open : string :=
  "BRAbJjE8R1JdaHN+iZSfqhhKe63fEEJzpdYIOWudzgAxY5TG9ylbjL7vIVKEtecZfThrXU11HwgSY14M5OjL9DUuKBIMfwsoB0dfDOTot79DWyhDIhZmamomNiLSxvbK".

(** no expiry; the members [active] = yes and [trial] = True *)
Definition license_flags : string :=
  "BRAbJjE8R1JdaHN+iZSfqjWfCXTeSLMdiPJcxzGbBnDaRa8ZhO5Ywy2YAmzXQasWfThrXU11HwgSY14M5OjL9DUuKBIMewkSD1xfDOTog6N1OCYcWmgDBwoIAAyKuI+jJGcEMCAUZGhoJDQg0MT0yA==".

End Demo.

(* ------------------------------------------------------------------ *)
(** ** The timestamp pattern of the specification *)

Module IsoPattern.

(** The timestamps the specification describes, in its words: the pattern
    [YYYY-MM-DDTHH:MM:SS], an optional fractional-seconds suffix, and a
    trailing [Z].  [spec_matches] is written from that sentence, not from
    the code, and is only used to compare [parseISODateTime] with it. *)
Definition fraction_then_Z (l : list ascii) : bool :=
  match l with
  | ["Z"%char] => true
  | "."%char :: frac =>
      match rev frac with
      | "Z"%char :: (_ :: _) as ds => forallb GetTime.is_digit ds
      | _ => false
      end
  | _ => false
  end.

Definition spec_matches (s : string) : bool :=
  match list_ascii_of_string s with
  | y1 :: y2 :: y3 :: y4 :: "-"%char :: m1 :: m2 :: "-"%char :: d1 :: d2
    :: "T"%char :: h1 :: h2 :: ":"%char :: n1 :: n2 :: ":"%char :: s1 :: s2
    :: rest =>
      forallb GetTime.is_digit
        [y1; y2; y3; y4; m1; m2; d1; d2; h1; h2; n1; n2; s1; s2]
      && fraction_then_Z rest
  | _ => false
  end.

(** The text of the pattern's fixed part for given field values, followed
    by [rest]. *)
Definition digit_char (n : Z) : ascii := ascii_of_nat (Z.to_nat (48 + n)).

Definition two_digits (n : Z) (rest : string) : string :=
  String (digit_char (n / 10)) (String (digit_char (n mod 10)) rest).

Definition four_digits (n : Z) (rest : string) : string :=
  String (digit_char (n / 1000))
    (String (digit_char (n / 100 mod 10)) (two_digits (n mod 100) rest)).

Definition iso_text (Y m d H M S : Z) (rest : string) : string :=
  four_digits Y (String "-" (two_digits m (String "-" (two_digits d
    (String "T" (two_digits H (String ":" (two_digits M
      (String ":" (two_digits S rest)))))))))).

(** A string of white space only (the empty string included). *)
Fixpoint white (s : string) : bool :=
  match s with
  | String c s' => GetTime.is_space c && white s'
  | EmptyString => true
  end.

End IsoPattern.

(* ------------------------------------------------------------------ *)
(** ** More sample licences *)

(** Licences for account 1234 under [Demo.key_bytes], as [Demo.seal]
    makes them. *)
Module Samples.

(** The plaintext is the JSON number 42, not an object. *)
Definition license_scalar : string :=
  "BRAbJjE8R1JdaHN+iZSfqvbk0sCunIp3ZVNBLx0L+ebUwrCejHpnVUMxHw376dbEMigEMCAUZGhoJDQg0MT0yA==".

(** The members [accountId] = 1234 (string), [revoked] = null,
    [seats] = 4294967301, [level] = 7, [quota] = 4294967301 as a string,
    and [expiry] = 2099-01-01T00:00:00Z. *)
Definition license_mixed : string :=
  "BRAbJjE8R1JdaHN+iZSfqrksnxKF+GveUcQ3qhyPAnXoW85BtCeaDYDzZtlMvzKlfThrXU11HwgSY14M5OjL9DUuKBIMaA8QCUFfSvzwlLNqdiYcXX8LEhUIABrs887/MC05Dh82SAoDXF9C/PDN6iRrf1Fae0hcRB4IF+rzzPE1KjscAjgPHhZDSFf88Nj0NiMzEx4rR1ZXfgoe5PrK/DYqUBxTEWFtbSExJdXB8c0=".

(** The object a successful call on [license_mixed] leaves. *)
Definition mixed_object : CSankeyLicenseDecoder :=
  verify_object Demo.platform new_decoder (Some Demo.masterKeyB64)
    (Some license_mixed) (Some "1234").

End Samples.

(* ------------------------------------------------------------------ *)
(** * Properties *)

(** ** Machine integers and JSON lookups *)

Lemma wrap_signed_small (w z : Z) :
  0 < w -> - 2 ^ (w - 1) <= z < 2 ^ (w - 1) -> wrap_signed w z = z.
Proof.
  intros Hw Hz. unfold wrap_signed.
  assert (E : 2 ^ w = 2 * 2 ^ (w - 1)).
  { replace w with (Z.succ (w - 1)) at 1 by lia. apply Z.pow_succ_r. lia. }
  rewrite Z.mod_small; lia.
Qed.

Lemma to_long_small (z : Z) : - 2 ^ 31 <= z < 2 ^ 31 -> to_long z = z.
Proof. intros H. apply wrap_signed_small; simpl; lia. Qed.

Lemma contains_at_key (j : json) (key : string) :
  Json.contains j key = true <-> exists v, Json.at_key j key = Some v.
Proof.
  destruct j; simpl; try (split; [discriminate | intros [v H]; discriminate]).
  destruct (Json.assoc key m) as [v|].
  - split; eauto.
  - split; [discriminate | intros [v H]; discriminate].
Qed.

(** [string_at] is the source's test
    [contains(key) && payload_[key].is_string()]. *)
Lemma string_at_None (j : json) (key : string) :
  string_at j key = None <->
  Json.contains j key = false \/
  exists v, Json.at_key j key = Some v /\ Json.is_string v = false.
Proof.
  unfold string_at. split.
  - destruct (Json.at_key j key) as [v|] eqn:E.
    + intros H. right. exists v. split; [reflexivity|].
      destruct v; try reflexivity. discriminate.
    + intros _. left.
      destruct (Json.contains j key) eqn:C; [|reflexivity].
      apply contains_at_key in C. destruct C as [v C]. congruence.
  - intros [C | (v & E & S)].
    + destruct (Json.at_key j key) as [v|] eqn:E; [|reflexivity].
      assert (Json.contains j key = true) by (apply contains_at_key; eauto).
      congruence.
    + rewrite E. destruct v; try reflexivity. discriminate.
Qed.

Example stoi_examples :
  StdString.stoi "  42abc" = Some 42 /\ StdString.stoi "-7" = Some (-7) /\
  StdString.stoi "abc" = None /\ StdString.stoi "2147483648" = None.
Proof. repeat split; reflexivity. Qed.

Example parseISODateTime_examples :
  parseISODateTime "2025-12-31T23:59:59.000Z" = 1767225599 /\
  parseISODateTime "2000-03-01T00:00:00Z" = 951868800 /\
  parseISODateTime "1970-01-01T00:00:00Z" = 0 /\
  parseISODateTime "1969-07-20T20:17:40Z" = -1 /\
  parseISODateTime "next year" = 0.
Proof. repeat split; reflexivity. Qed.

(** On a 32-bit [long] a date past 2038-01-19 does not survive the cast. *)
Example parseISODateTime_2099 :
  parseISODateTime "2099-01-01T00:00:00Z" = 4070908800 - 2 ^ 32.
Proof. reflexivity. Qed.

(** The sample licences are what [Demo.seal] makes of their payloads. *)
Example demo_licenses_sealed :
  let sealed members :=
    Demo.seal Demo.key_bytes Demo.iv_bytes (Demo.object_text members) "1234" in
  Demo.to_base64 Demo.key_bytes = Demo.masterKeyB64 /\
  sealed [("accountId", "1234"); ("expiry", "1970-01-01T00:00:00Z")]
    = Demo.license_epoch /\
  sealed [("accountId", "1234"); ("expiry", "1969-07-20T20:17:40Z")]
    = Demo.license_1969 /\
  sealed [("accountId", "1234"); ("expiry", "2001-09-09T01:46:40Z")]
    = Demo.license_2001 /\
  sealed [("accountId", "1234"); ("expiry", "2030-01-01T00:00:00Z")]
    = Demo.license_2030 /\
  sealed [("accountId", "1234"); ("eaName", "MyEA")] = Demo.license_open /\
  sealed [("accountId", "1234"); ("active", "yes"); ("trial", "True")]
    = Demo.license_flags.
Proof. repeat split; vm_compute; reflexivity. Qed.

(** A valid call goes through the whole protocol, in order. *)
Example demo_trace_2030 :
  map rank (verify_trace Demo.platform new_decoder (Some Demo.masterKeyB64)
              (Some Demo.license_2030) (Some "1234"))
  = [0; 0; 1; 1; 2; 3; 4; 5; 6; 7; 8; 9].
Proof. vm_compute. reflexivity. Qed.

Example demo_verify_2030 :
  verify_status Demo.platform new_decoder (Some Demo.masterKeyB64)
    (Some Demo.license_2030) (Some "1234") = Valid /\
  getValue (verify_object Demo.platform new_decoder (Some Demo.masterKeyB64)
              (Some Demo.license_2030) (Some "1234"))
    (Some "accountId") (Some "") = "1234".
Proof. split; vm_compute; reflexivity. Qed.

(** A null handle answers with the defaults and verifies nothing. *)
Lemma null_handle_defaults (P : Platform) (key dflt : cstr) (a b c : cstr) :
  CInterface.GetValue None key dflt = (default_string dflt, None) /\
  CInterface.HasKey None key = false /\
  fst (CInterface.Verify P None a b c) = 2.
Proof. repeat split. Qed.

(** ** Running [verify] symbolically *)

Arguments parseISODateTime : simpl never.
Arguments memcmp : simpl never.
Arguments fill_resized : simpl never.
Arguments envelope_iv : simpl never.
Arguments envelope_hmac : simpl never.
Arguments envelope_cipher : simpl never.
Arguments hmac_input : simpl never.
Arguments string_of_list_byte : simpl never.
Arguments Json.clear : simpl never.
Arguments Json.at_key : simpl never.

(** Unfolds one call of [verify] down to the tests it makes. *)
Ltac verify_unfold :=
  unfold verify_status, verify_object, verify_trace, verify, verify_body,
    check_expiry, parse_payload, base64_decode, hmac_sha256, aes_cbc_decrypt,
    set_isVerified, clear_payload, or_return, return_if, get_payload,
    VerifyM.log, VerifyM.modify, VerifyM.bind, VerifyM.ret, VerifyM.Return,
    option_map;
  cbn -[Nat.ltb].

(** A test is innermost when what it examines holds no further test. *)
Ltac innermost x :=
  lazymatch x with
  | context [match _ with _ => _ end] => fail
  | _ => idtac
  end.

(** Decides the innermost pending test of an unfolded call: from a
    hypothesis when one settles it, by cases otherwise. *)
Ltac verify_step :=
  match goal with
  | H : ?x = _ |- context [match ?x with _ => _ end] => rewrite H
  | |- context [match ?x with _ => _ end] => innermost x; destruct x eqn:?
  end;
  cbn -[Nat.ltb].

Ltac verify_run := verify_unfold; repeat verify_step.

(** An action cannot be two different things. *)
Ltac action_clash :=
  repeat match goal with
    | H : _ \/ _ |- _ => destruct H
    | H : False |- _ => destruct H
    | H : exists _, @eq action _ _ |- _ => destruct H
    | H : @eq action _ _ |- _ => first [discriminate H | inversion H; clear H; subst]
    end.

Section Paths.

Variable P : Platform.

(** An object whose flag is down answers every getter with the default. *)
Lemma getters_gated (d : CSankeyLicenseDecoder) :
  isVerified_ d = false ->
  forall (key : cstr),
    (forall dflt, getValue d key dflt = default_string dflt) /\
    (forall dflt, getValueAsInt d key dflt = dflt) /\
    (forall dflt, getValueAsBool d key dflt = dflt) /\
    (forall dflt, getValueAsDouble P d key dflt = dflt) /\
    (forall dflt, getValueAsDateTime d key dflt = dflt) /\
    hasKey d key = false.
Proof.
  intros H key.
  unfold getValue, getValueAsInt, getValueAsBool, getValueAsDouble,
    getValueAsDateTime, hasKey.
  rewrite H. repeat split; reflexivity.
Qed.

Lemma verify_flag_iff_Valid d mk lic acc :
  isVerified_ (verify_object P d mk lic acc) = true <->
  verify_status P d mk lic acc = Valid.
Proof.
  verify_run; split; intros; congruence.
Qed.

(** The trace opens with the two resets and raises the flag, if at all, as
    its last action, which it does exactly in a [Valid] call. *)
Lemma verify_trace_flag d mk lic acc :
  let tr := verify_trace P d mk lic acc in
  firstn 2 tr = [Set_isVerified false; Clear_payload] /\
  ~ In (Set_isVerified true) (removelast tr) /\
  (last tr Clear_payload = Set_isVerified true <->
   verify_status P d mk lic acc = Valid).
Proof.
  verify_run;
    (split; [reflexivity |
     split; [intros H; action_clash | split; intros; congruence]]).
Qed.

(** Whatever the outcome, nothing of the payload held before the call is
    left: the member is the cleared old value unless the call assigned the
    freshly parsed one. *)
Lemma verify_payload_replaced d mk lic acc :
  payload_ (verify_object P d mk lic acc) = Json.clear (payload_ d) \/
  exists text,
    In (Call_json_parse text) (verify_trace P d mk lic acc) /\
    json_parse P text = Some (payload_ (verify_object P d mk lic acc)).
Proof.
  verify_run;
    try (left; reflexivity);
    right; eexists; (split; [ | eassumption]); simpl; tauto.
Qed.

Lemma verify_at_expiry_check d mk lic acc j :
  reaches_expiry_check P mk lic acc j ->
  verify_status P d (Some mk) (Some lic) (Some acc)
    = (if expired_at P j then Expired else Valid) /\
  verify_object P d (Some mk) (Some lic) (Some acc)
    = mk_decoder j (negb (expired_at P j)) (lastStringResult_ d).
Proof.
  intros (key & blob & plain & (Hk & Hklen & Hb & Hblen) & (tag & Ht & Hcmp)
          & Haes & Hj).
  assert (Hk32 : negb (Nat.eqb (List.length key) 32) = false)
    by (rewrite Hklen; reflexivity).
  assert (Hb48 : Nat.ltb (List.length blob) 48 = false)
    by (apply Nat.ltb_ge; exact Hblen).
  unfold expired_at.
  verify_unfold.
  rewrite Hk; cbn -[Nat.ltb]. rewrite Hk32; cbn -[Nat.ltb].
  rewrite Hb; cbn -[Nat.ltb]. rewrite Hb48; cbn -[Nat.ltb].
  rewrite Ht; cbn -[Nat.ltb]. rewrite Hcmp; cbn -[Nat.ltb].
  rewrite Haes; cbn -[Nat.ltb]. rewrite Hj; cbn -[Nat.ltb].
  destruct (string_at j "expiry") as [s|]; cbn -[Nat.ltb].
  - destruct (0 <? parseISODateTime s); cbn -[Nat.ltb].
    + destruct (parseISODateTime s <? time_now P); cbn -[Nat.ltb];
        split; reflexivity.
    + split; reflexivity.
  - split; reflexivity.
Qed.

End Paths.

(* ------------------------------------------------------------------ *)
(** ** The verified gate *)

(** [clear] leaves the empty value of the kind: no member, no element, no
    character, zero or [false]. *)
Lemma clear_cleared (j : json) :
  Json.cleared (Json.clear j) /\
  forall k, Json.contains (Json.clear j) k = false /\
            Json.at_key (Json.clear j) k = None.
Proof. destruct j; split; try reflexivity; intros k; split; reflexivity. Qed.

(** A call that returns neither [Valid] nor [Expired] leaves the cleared
    payload behind. *)
Lemma verify_payload_stays_cleared (P : Platform) d mk lic acc :
  verify_status P d mk lic acc <> Valid ->
  verify_status P d mk lic acc <> Expired ->
  payload_ (verify_object P d mk lic acc) = Json.clear (payload_ d).
Proof.
  verify_run; intros; try reflexivity; congruence.
Qed.

(** C1.  Every call of [verify] starts by lowering [isVerified_] and
    clearing [payload_]; whatever the outcome, the payload held before the
    call is gone: the member is either the cleared value - which holds
    nothing: no member (no key is contained, none can be read), no element,
    no character, zero or [false] - or the value this call parsed, and it is
    the cleared one whenever the call returns neither [Valid] nor
    [Expired].  The flag is raised only by the last action of the call, and
    that happens exactly when the call returns [Valid].  Consequently, on a
    just-constructed object and on an object left by a call that returned
    anything but [Valid], every getter returns the caller's default (the
    empty string for a null string default) and [hasKey] returns false. *)
Theorem verified_gate (P : Platform) (d : CSankeyLicenseDecoder)
    (mk lic acc : cstr) :
  let st := verify_status P d mk lic acc in
  let d' := verify_object P d mk lic acc in
  let tr := verify_trace P d mk lic acc in
  firstn 2 tr = [Set_isVerified false; Clear_payload] /\
  (payload_ d' = Json.clear (payload_ d) /\
   Json.cleared (payload_ d') /\
   (forall k, Json.contains (payload_ d') k = false /\
              Json.at_key (payload_ d') k = None) \/
   exists text, In (Call_json_parse text) tr /\
                json_parse P text = Some (payload_ d')) /\
  (st <> Valid -> st <> Expired ->
   payload_ d' = Json.clear (payload_ d) /\
   Json.cleared (payload_ d') /\
   forall k, Json.contains (payload_ d') k = false /\
             Json.at_key (payload_ d') k = None) /\
  ~ In (Set_isVerified true) (removelast tr) /\
  (last tr Clear_payload = Set_isVerified true <-> st = Valid) /\
  (isVerified_ d' = true <-> st = Valid) /\
  forall d0 : CSankeyLicenseDecoder,
    d0 = new_decoder \/ (d0 = d' /\ st <> Valid) ->
    forall key : cstr,
      (forall dflt, getValue d0 key dflt = default_string dflt) /\
      (forall dflt, getValueAsInt d0 key dflt = dflt) /\
      (forall dflt, getValueAsBool d0 key dflt = dflt) /\
      (forall dflt, getValueAsDouble P d0 key dflt = dflt) /\
      (forall dflt, getValueAsDateTime d0 key dflt = dflt) /\
      hasKey d0 key = false.
Proof.
  intros st d' tr.
  destruct (verify_trace_flag P d mk lic acc) as (Hstart & Hlast & Hraise).
  pose proof (verify_flag_iff_Valid P d mk lic acc) as Hflag.
  assert (Hclr : payload_ d' = Json.clear (payload_ d) ->
                 payload_ d' = Json.clear (payload_ d) /\
                 Json.cleared (payload_ d') /\
                 forall k, Json.contains (payload_ d') k = false /\
                           Json.at_key (payload_ d') k = None).
  { intros E. split; [exact E|]. rewrite E. apply clear_cleared. }
  split; [exact Hstart|].
  split.
  { destruct (verify_payload_replaced P d mk lic acc) as [E | E];
      [left; apply Hclr, E | right; exact E]. }
  split.
  { intros H1 H2. apply Hclr.
    apply (verify_payload_stays_cleared P d mk lic acc H1 H2). }
  split; [exact Hlast|].
  split; [exact Hraise|].
  split; [exact Hflag|].
  intros d0 [-> | [-> Hst]] key; apply getters_gated.
  - reflexivity.
  - fold d' st in Hflag.
    destruct (isVerified_ d') eqn:E; [|reflexivity].
    exfalso. apply Hst, Hflag. reflexivity.
Qed.

(** After the expired 2001 licence the parsed payload is in the object, and
    the getters still answer with the defaults.  An object that holds the
    payload of the valid 2030 licence and is then asked to verify the same
    licence for another account is left with an object without members. *)
Lemma verified_gate_witness :
  verify_status Demo.platform new_decoder (Some Demo.masterKeyB64)
    (Some Demo.license_2001) (Some "1234") = Expired /\
  Json.contains
    (payload_ (verify_object Demo.platform new_decoder
                 (Some Demo.masterKeyB64) (Some Demo.license_2001)
                 (Some "1234")))
    "accountId" = true /\
  getValue
    (verify_object Demo.platform new_decoder (Some Demo.masterKeyB64)
       (Some Demo.license_2001) (Some "1234"))
    (Some "accountId") (Some "nobody") = "nobody" /\
  hasKey
    (verify_object Demo.platform new_decoder (Some Demo.masterKeyB64)
       (Some Demo.license_2001) (Some "1234"))
    (Some "accountId") = false /\
  hasKey
    (verify_object Demo.platform new_decoder (Some Demo.masterKeyB64)
       (Some Demo.license_2030) (Some "1234"))
    (Some "accountId") = true /\
  payload_
    (verify_object Demo.platform
       (verify_object Demo.platform new_decoder (Some Demo.masterKeyB64)
          (Some Demo.license_2030) (Some "1234"))
       (Some Demo.masterKeyB64) (Some Demo.license_2030) (Some "4321"))
    = Jobject [].
Proof.
  split; [vm_compute; reflexivity|].
  split; [vm_compute; reflexivity|].
  destruct (verified_gate Demo.platform new_decoder (Some Demo.masterKeyB64)
              (Some Demo.license_2001) (Some "1234"))
    as (_ & _ & _ & _ & _ & _ & G).
  destruct (G (verify_object Demo.platform new_decoder
                 (Some Demo.masterKeyB64) (Some Demo.license_2001)
                 (Some "1234")))
    with (key := Some "accountId") as (Hs & _ & _ & _ & _ & Hk).
  - right. split; [reflexivity|]. vm_compute. discriminate.
  - split; [apply (Hs (Some "nobody"))|].
    split; [exact Hk|].
    split; [vm_compute; reflexivity|].
    destruct (verified_gate Demo.platform
                (verify_object Demo.platform new_decoder
                   (Some Demo.masterKeyB64) (Some Demo.license_2030)
                   (Some "1234"))
                (Some Demo.masterKeyB64) (Some Demo.license_2030)
                (Some "4321"))
      as (_ & _ & C & _).
    destruct C as (E & _); [vm_compute; discriminate ..|].
    rewrite E. vm_compute. reflexivity.
Defined.

(* ------------------------------------------------------------------ *)
(** ** Tag comparison and account binding *)

Lemma byte_val_inj (x y : byte) : byte_val x = byte_val y -> x = y.
Proof.
  unfold byte_val. intros H. apply N2Z.inj in H.
  pose proof (Byte.of_to_N x) as Hx. rewrite H, Byte.of_to_N in Hx.
  congruence.
Qed.

(** On buffers that hold at least [n] bytes, [memcmp] returns 0 exactly
    when their first [n] bytes agree. *)
Lemma memcmp_zero_iff (n : nat) :
  forall a b : bytes,
    (n <= List.length a)%nat -> (n <= List.length b)%nat ->
    (memcmp a b n = 0 <-> firstn n a = firstn n b).
Proof.
  induction n as [|n IH]; intros a b Ha Hb.
  - split; intros _; reflexivity.
  - destruct a as [|x a]; [simpl in Ha; lia|].
    destruct b as [|y b]; [simpl in Hb; lia|].
    simpl in Ha, Hb.
    change (memcmp (x :: a) (y :: b) (S n))
      with (if Byte.eqb x y then memcmp a b n else byte_val x - byte_val y).
    cbn [firstn].
    destruct (Byte.eqb x y) eqn:E.
    + apply Byte.byte_dec_bl in E. subst y.
      rewrite (IH a b) by lia. split; intros H; [f_equal; exact H|].
      inversion H. reflexivity.
    + apply Byte.eqb_false in E. split; intros H.
      * exfalso. apply E, byte_val_inj. lia.
      * inversion H. contradiction.
Qed.

Lemma fill_resized_length (n : nat) (src : bytes) :
  List.length (fill_resized n src) = n.
Proof.
  unfold fill_resized.
  rewrite length_firstn, length_app, repeat_length. lia.
Qed.

Lemma envelope_hmac_length (blob : bytes) :
  (48 <= List.length blob)%nat -> List.length (envelope_hmac blob) = 32%nat.
Proof.
  intros H. unfold envelope_hmac. rewrite length_firstn, length_skipn. lia.
Qed.

(** The comparison in [verify] passes exactly when the computed tag is the
    stored one. *)
Lemma tag_compare_iff (tag blob : bytes) :
  (48 <= List.length blob)%nat ->
  (memcmp (fill_resized 32 tag) (envelope_hmac blob) 32 = 0 <->
   fill_resized 32 tag = envelope_hmac blob).
Proof.
  intros H.
  rewrite memcmp_zero_iff
    by (rewrite ?fill_resized_length, ?envelope_hmac_length by exact H; lia).
  rewrite !firstn_all2
    by (rewrite ?fill_resized_length, ?envelope_hmac_length by exact H; lia).
  tauto.
Qed.

Section Tampered.

Variable P : Platform.

(** A call whose decodes succeed, whose tag is computed and differs from
    the stored one returns [Tampered], leaves the flag down and attempts no
    decryption. *)
Lemma verify_tag_mismatch d mk lic acc key blob tag :
  decodes P mk lic key blob ->
  crypt_hmac_sha256 P key (hmac_input blob acc) = Some tag ->
  fill_resized 32 tag <> envelope_hmac blob ->
  verify P d (Some mk) (Some lic) (Some acc) =
    (Tampered,
     mk_decoder (Json.clear (payload_ d)) false (lastStringResult_ d),
     [Set_isVerified false; Clear_payload; Call_base64_decode mk;
      Call_base64_decode lic; Call_hmac_sha256 key (hmac_input blob acc);
      Call_memcmp (fill_resized 32 tag) (envelope_hmac blob)]).
Proof.
  intros (Hk & Hklen & Hb & Hblen) Ht Hne.
  assert (Hk32 : negb (Nat.eqb (List.length key) 32) = false)
    by (rewrite Hklen; reflexivity).
  assert (Hb48 : Nat.ltb (List.length blob) 48 = false)
    by (apply Nat.ltb_ge; exact Hblen).
  assert (Hcmp : negb (memcmp (fill_resized 32 tag) (envelope_hmac blob) 32
                        =? 0) = true).
  { apply negb_true_iff, Z.eqb_neq. intros H.
    apply Hne, tag_compare_iff; assumption. }
  verify_unfold.
  rewrite Hk; cbn -[Nat.ltb]. rewrite Hk32; cbn -[Nat.ltb].
  rewrite Hb; cbn -[Nat.ltb]. rewrite Hb48; cbn -[Nat.ltb].
  rewrite Ht; cbn -[Nat.ltb]. rewrite Hcmp; cbn -[Nat.ltb].
  reflexivity.
Qed.

End Tampered.

(** C2.  Take an envelope whose stored tag was computed over
    [IV || ciphertext || A] under the 32-byte key [K].  Verifying it with
    the same key and blob but an account id [B] for which the recomputed
    tag differs from the stored one returns [Tampered]; so does verifying
    it for [A] under another 32-byte key [K'] whose tag differs.  In both
    cases the status is neither [Valid] nor [DecryptionFailed]. *)
Theorem account_binding (P : Platform) (d : CSankeyLicenseDecoder)
    (mk lic A : string) (K blob tagA : bytes) :
  decodes P mk lic K blob ->
  crypt_hmac_sha256 P K (hmac_input blob A) = Some tagA ->
  envelope_hmac blob = fill_resized 32 tagA ->
  (forall (B : string) (tagB : bytes),
     crypt_hmac_sha256 P K (hmac_input blob B) = Some tagB ->
     fill_resized 32 tagB <> envelope_hmac blob ->
     verify_status P d (Some mk) (Some lic) (Some B) = Tampered) /\
  (forall (mk' : string) (K' tag' : bytes),
     crypt_string_to_binary P mk' = Some K' ->
     List.length K' = 32%nat ->
     crypt_hmac_sha256 P K' (hmac_input blob A) = Some tag' ->
     fill_resized 32 tag' <> envelope_hmac blob ->
     verify_status P d (Some mk') (Some lic) (Some A) = Tampered).
Proof.
  intros Hdec HA Hstored. split.
  - intros B tagB HB Hne. unfold verify_status.
    rewrite (verify_tag_mismatch P d mk lic B K blob tagB Hdec HB Hne).
    reflexivity.
  - intros mk' K' tag' HK' Hlen Ht Hne. unfold verify_status.
    destruct Hdec as (_ & _ & Hb & Hblen).
    assert (Hdec' : decodes P mk' lic K' blob) by (repeat split; assumption).
    rewrite (verify_tag_mismatch P d mk' lic A K' blob tag' Hdec' Ht Hne).
    reflexivity.
Qed.

(** The licence sealed for account 1234 is [Tampered] for account 9999, and
    for account 1234 under the all-zero key. *)
Lemma account_binding_witness :
  verify_status Demo.platform new_decoder (Some Demo.masterKeyB64)
    (Some Demo.license_2030) (Some "9999") = Tampered /\
  verify_status Demo.platform new_decoder (Some Demo.otherKeyB64)
    (Some Demo.license_2030) (Some "1234") = Tampered.
Proof.
  edestruct (account_binding Demo.platform new_decoder Demo.masterKeyB64
               Demo.license_2030 "1234") as [HB HK].
  - repeat split; try (lazy; reflexivity). lazy. lia.
  - lazy. reflexivity.
  - lazy. reflexivity.
  - split.
    + eapply HB; [lazy; reflexivity | lazy; discriminate].
    + eapply HK; [lazy; reflexivity | lazy; reflexivity | lazy; reflexivity
                 | lazy; discriminate].
Defined.
(* ------------------------------------------------------------------ *)
(** ** The order of the protocol *)

Ltac sorted_by_rank :=
  repeat first
    [ apply SSorted_nil | apply SSorted_cons | apply Forall_nil
    | apply Forall_cons | (cbn; lia) ].

(** Finds an action in an explicit trace. *)
Ltac in_trace := simpl; repeat first [ left; reflexivity | right ].

Ltac tests_to_props :=
  repeat match goal with
    | H : negb _ = false |- _ => apply negb_false_iff in H
    | H : negb _ = true |- _ => apply negb_true_iff in H
    | H : (_ =? _) = true |- _ => apply Z.eqb_eq in H
    | H : Nat.eqb _ _ = true |- _ => apply Nat.eqb_eq in H
    | H : Nat.ltb _ _ = false |- _ => apply Nat.ltb_ge in H
    end.

(** C3.  In every call of [verify] the actions come in protocol order -
    decode, HMAC, tag comparison, decryption, JSON parse, expiry
    evaluation.  A decryption is attempted only on the IV and the
    ciphertext of the decoded envelope, with the decoded key, and only
    after the tag was computed with that key over
    [IV || ciphertext || accountId] and compared with the 32 bytes stored
    in the envelope after the IV, and the two were the same bytes; the JSON
    parser is only given what that decryption returned; the date parser and
    the clock are used only after the parse succeeded.  Unless the computed
    tag is the stored one, the call does nothing beyond the comparison: no
    decryption, no parse, no assignment of the payload, no date, no clock,
    no raising of the flag.  So nothing of the ciphertext is read on a path
    where the comparison did not pass. *)
Theorem verify_order (P : Platform) (d : CSankeyLicenseDecoder)
    (mk lic acc : cstr) :
  let tr := verify_trace P d mk lic acc in
  StronglySorted (fun a b => rank a <= rank b) tr /\
  (forall key iv cipher,
     In (Call_aes_cbc_decrypt key iv cipher) tr ->
     exists m l a blob tag,
       mk = Some m /\ lic = Some l /\ acc = Some a /\
       decodes P m l key blob /\
       iv = envelope_iv blob /\ cipher = envelope_cipher blob /\
       In (Call_hmac_sha256 key (hmac_input blob a)) tr /\
       crypt_hmac_sha256 P key (hmac_input blob a) = Some tag /\
       In (Call_memcmp (fill_resized 32 tag) (envelope_hmac blob)) tr /\
       memcmp (fill_resized 32 tag) (envelope_hmac blob) 32 = 0 /\
       fill_resized 32 tag = envelope_hmac blob) /\
  (forall text,
     In (Call_json_parse text) tr ->
     exists key iv cipher plain,
       In (Call_aes_cbc_decrypt key iv cipher) tr /\
       crypt_aes256_cbc_decrypt P key iv cipher = Some plain /\
       text = string_of_list_byte plain) /\
  (forall a,
     In a tr ->
     (exists s, a = Call_parseISODateTime s) \/ a = Call_time ->
     exists text j,
       In (Call_json_parse text) tr /\ json_parse P text = Some j) /\
  ((forall key blob, ~ tag_verified P mk lic acc key blob) ->
   forall x, In x tr -> rank x <= 3).
Proof.
  verify_run; tests_to_props;
    (split; [sorted_by_rank | split; [ | split; [ | split ]]]).
  (* the last part where the call stops at or before the comparison *)
  all: try (intros _ x Hx; simpl in Hx;
            repeat (destruct Hx as [<- | Hx]; [cbn; lia|]);
            destruct Hx; fail).
  (* the other parts where the trace has no such action *)
  all: try (intros; action_clash; fail).
  (* the last part where the comparison passed *)
  all: try (intros Hno x _; exfalso;
            match goal with
            | Hk : crypt_string_to_binary _ _ = Some ?key,
              Hb : crypt_string_to_binary _ _ = Some ?blob |- _ =>
                apply (Hno key blob);
                do 4 eexists;
                split; [reflexivity|]; split; [reflexivity|];
                split; [reflexivity|];
                split; [repeat split; eassumption|];
                split; [eassumption|];
                apply tag_compare_iff; assumption
            end).
  all: intros; action_clash.
  all: try (do 5 eexists;
            split; [reflexivity|]; split; [reflexivity|];
            split; [reflexivity|];
            split; [repeat split; eassumption|];
            split; [reflexivity|]; split; [reflexivity|];
            split; [in_trace|]; split; [eassumption|];
            split; [in_trace|]; split; [assumption|];
            apply tag_compare_iff; assumption).
  all: try (do 4 eexists; split; [in_trace | split; [eassumption |
            reflexivity]]; fail).
  all: try (do 2 eexists; split; [in_trace | eassumption]; fail).
Qed.

(* ------------------------------------------------------------------ *)
(** ** Expiry *)

(** A call that reaches the expiry check with a payload whose [expiry] is
    missing, is not a string, or does not parse to a positive timestamp
    returns [Valid] at any time. *)
Lemma verify_without_expiry (P : Platform) (d : CSankeyLicenseDecoder)
    (mk lic acc : string) (j : json) :
  reaches_expiry_check P mk lic acc j ->
  Json.contains j "expiry" = false \/
  (exists v, Json.at_key j "expiry" = Some v /\ Json.is_string v = false) \/
  (exists s, Json.at_key j "expiry" = Some (Jstring s) /\
             parseISODateTime s <= 0) ->
  forall now,
    verify_status (with_time P now) d (Some mk) (Some lic) (Some acc) = Valid.
Proof.
  intros Hreach Hno now.
  assert (Hreach' : reaches_expiry_check (with_time P now) mk lic acc j)
    by exact Hreach.
  destruct (verify_at_expiry_check (with_time P now) d mk lic acc j Hreach')
    as [-> _].
  unfold expired_at.
  destruct Hno as [Hc | [Hv | (s & Hs & Hle)]].
  - assert (E : string_at j "expiry" = None)
      by (apply string_at_None; left; exact Hc).
    rewrite E. reflexivity.
  - assert (E : string_at j "expiry" = None)
      by (apply string_at_None; right; exact Hv).
    rewrite E. reflexivity.
  - unfold string_at. rewrite Hs.
    assert (E : (0 <? parseISODateTime s) = false) by (apply Z.ltb_ge; lia).
    rewrite E. reflexivity.
Qed.

(** Discharges [reaches_expiry_check] on the sample platform by running
    each stage. *)
Ltac demo_reaches :=
  unfold reaches_expiry_check, decodes, mac_passes;
  eexists; eexists; eexists;
  (split;
   [ repeat split; try (lazy; reflexivity); lazy; lia
   | split;
     [ eexists; split; lazy; reflexivity
     | split; lazy; reflexivity ] ]).

(** C4, as the code has it.  On a call that reaches the expiry check with
    payload [j]: when [j] has a string member [expiry] for which
    [parseISODateTime] returns a strictly positive timestamp strictly less
    than the current time, [verify] returns [Expired]; when [expiry] is
    absent, is not a string, or [parseISODateTime] returns 0 or less for it
    (its failure value included), [verify] returns [Valid] whatever the
    clock says. *)
Theorem expiry_evaluation (P : Platform) (d : CSankeyLicenseDecoder)
    (mk lic acc : string) (j : json) :
  reaches_expiry_check P mk lic acc j ->
  (forall s,
     Json.at_key j "expiry" = Some (Jstring s) ->
     0 < parseISODateTime s < time_now P ->
     verify_status P d (Some mk) (Some lic) (Some acc) = Expired) /\
  (Json.contains j "expiry" = false \/
   (exists v, Json.at_key j "expiry" = Some v /\ Json.is_string v = false) \/
   (exists s, Json.at_key j "expiry" = Some (Jstring s) /\
              parseISODateTime s <= 0) ->
   forall now,
     verify_status (with_time P now) d (Some mk) (Some lic) (Some acc)
       = Valid).
Proof.
  intros Hreach. split.
  - intros s Hs [Hpos Hlt].
    destruct (verify_at_expiry_check P d mk lic acc j Hreach) as [-> _].
    unfold expired_at, string_at. rewrite Hs.
    apply Z.ltb_lt in Hpos, Hlt. rewrite Hpos, Hlt. reflexivity.
  - apply verify_without_expiry. exact Hreach.
Qed.

(** The 2001 licence is expired at the sample clock; the licence without
    [expiry] is valid even when the clock stands in the year 2096. *)
Lemma expiry_evaluation_witness :
  verify_status Demo.platform new_decoder (Some Demo.masterKeyB64)
    (Some Demo.license_2001) (Some "1234") = Expired /\
  verify_status (with_time Demo.platform 4000000000) new_decoder
    (Some Demo.masterKeyB64) (Some Demo.license_open) (Some "1234") = Valid.
Proof.
  split.
  - eapply (expiry_evaluation Demo.platform new_decoder Demo.masterKeyB64
              Demo.license_2001 "1234").
    + demo_reaches.
    + lazy. reflexivity.
    + lazy. split; reflexivity.
  - eapply (expiry_evaluation Demo.platform new_decoder Demo.masterKeyB64
              Demo.license_open "1234").
    + demo_reaches.
    + left. lazy. reflexivity.
Defined.

(** C4 as the specification words it - any valid timestamp in the past
    expires the licence - fails for the epoch itself: the licence whose
    [expiry] is 1970-01-01T00:00:00Z parses, [_mkgmtime] gives the valid
    timestamp 0, 0 is less than the clock, and [verify] returns [Valid],
    not [Expired]. *)
Lemma expiry_epoch_counterexample :
  Json.at_key
    (payload_ (verify_object Demo.platform new_decoder
                 (Some Demo.masterKeyB64) (Some Demo.license_epoch)
                 (Some "1234")))
    "expiry" = Some (Jstring "1970-01-01T00:00:00Z") /\
  GetTime.get_time "1970-01-01T00:00:00Z" = Some (mk_tm 0 0 0 1 0 70, "Z") /\
  MkGmTime._mkgmtime (mk_tm 0 0 0 1 0 70) = 0 /\
  0 < time_now Demo.platform /\
  verify_status Demo.platform new_decoder (Some Demo.masterKeyB64)
    (Some Demo.license_epoch) (Some "1234") = Valid.
Proof. repeat split; vm_compute; reflexivity. Qed.

(** C10.  When the [expiry] string of the payload makes [parseISODateTime]
    return 0 or less - 1970-01-01T00:00:00Z, or a date before 1970 - a call
    that reaches the expiry check returns [Valid] whatever the clock says,
    never [Expired]; and on any verified object [getValueAsDateTime]
    returns the caller's default for a string on which [parseISODateTime]
    is not strictly positive. *)
Theorem nonpositive_epoch_is_no_expiry (P : Platform)
    (d : CSankeyLicenseDecoder) (mk lic acc : string) (j : json) (s : string) :
  reaches_expiry_check P mk lic acc j ->
  Json.at_key j "expiry" = Some (Jstring s) ->
  parseISODateTime s <= 0 ->
  (forall now,
     verify_status (with_time P now) d (Some mk) (Some lic) (Some acc)
       = Valid) /\
  (forall dflt,
     getValueAsDateTime (verify_object P d (Some mk) (Some lic) (Some acc))
       (Some "expiry") dflt = dflt) /\
  (forall (d0 : CSankeyLicenseDecoder) (key s0 : string) (dflt : Z),
     Json.at_key (payload_ d0) key = Some (Jstring s0) ->
     parseISODateTime s0 <= 0 ->
     getValueAsDateTime d0 (Some key) dflt = dflt).
Proof.
  intros Hreach Hs Hle.
  assert (G : forall (d0 : CSankeyLicenseDecoder) (key s0 : string) (dflt : Z),
             Json.at_key (payload_ d0) key = Some (Jstring s0) ->
             parseISODateTime s0 <= 0 ->
             getValueAsDateTime d0 (Some key) dflt = dflt).
  { intros d0 key s0 dflt Hk Hp. unfold getValueAsDateTime, string_at.
    rewrite Hk.
    assert (E : (0 <? parseISODateTime s0) = false) by (apply Z.ltb_ge; lia).
    rewrite E. destruct (isVerified_ d0); reflexivity. }
  split; [|split].
  - apply (verify_without_expiry P d mk lic acc j Hreach).
    right. right. exists s. split; assumption.
  - intros dflt. apply (G _ "expiry" s); [|exact Hle].
    destruct (verify_at_expiry_check P d mk lic acc j Hreach) as [_ ->].
    exact Hs.
  - exact G.
Qed.

(** The licence whose [expiry] is 1969-07-20T20:17:40Z: [parseISODateTime]
    returns -1, the call is [Valid] with the clock in 2096, and the getter
    returns the default 12345. *)
Lemma nonpositive_epoch_witness :
  parseISODateTime "1969-07-20T20:17:40Z" = -1 /\
  verify_status (with_time Demo.platform 4000000000) new_decoder
    (Some Demo.masterKeyB64) (Some Demo.license_1969) (Some "1234") = Valid /\
  getValueAsDateTime
    (verify_object Demo.platform new_decoder (Some Demo.masterKeyB64)
       (Some Demo.license_1969) (Some "1234"))
    (Some "expiry") 12345 = 12345.
Proof.
  split; [reflexivity|].
  edestruct (nonpositive_epoch_is_no_expiry Demo.platform new_decoder
               Demo.masterKeyB64 Demo.license_1969 "1234")
    as (HV & HG & _).
  - demo_reaches.
  - lazy. reflexivity.
  - vm_compute. discriminate.
  - split; [apply HV | apply HG].
Defined.

(* ------------------------------------------------------------------ *)
(** ** Rejected inputs *)

Section Rejected.

Variable P : Platform.

Lemma verify_null_input d mk lic acc :
  mk = None \/ lic = None \/ acc = None ->
  verify P d mk lic acc =
    (Invalid, reset_object d, [Set_isVerified false; Clear_payload]).
Proof.
  intros H. verify_unfold.
  destruct mk; [destruct lic; [destruct acc|]|]; try reflexivity.
  destruct H as [H | [H | H]]; discriminate.
Qed.

Lemma verify_bad_key d mk lic acc :
  crypt_string_to_binary P mk = None \/
  (exists key, crypt_string_to_binary P mk = Some key /\
               List.length key <> 32%nat) ->
  verify P d (Some mk) (Some lic) (Some acc) =
    (KeyError, reset_object d,
     [Set_isVerified false; Clear_payload; Call_base64_decode mk]).
Proof.
  intros [H | (key & H & Hlen)]; verify_unfold; rewrite H; cbn -[Nat.ltb].
  - reflexivity.
  - apply Nat.eqb_neq in Hlen. rewrite Hlen. reflexivity.
Qed.

Lemma verify_bad_license d mk lic acc key :
  crypt_string_to_binary P mk = Some key ->
  List.length key = 32%nat ->
  crypt_string_to_binary P lic = None \/
  (exists blob, crypt_string_to_binary P lic = Some blob /\
                (List.length blob < 48)%nat) ->
  verify P d (Some mk) (Some lic) (Some acc) =
    (Invalid, reset_object d,
     [Set_isVerified false; Clear_payload; Call_base64_decode mk;
      Call_base64_decode lic]).
Proof.
  intros Hk Hklen Hl.
  assert (Hk32 : negb (Nat.eqb (List.length key) 32) = false)
    by (rewrite Hklen; reflexivity).
  verify_unfold. rewrite Hk; cbn -[Nat.ltb]. rewrite Hk32; cbn -[Nat.ltb].
  destruct Hl as [H | (blob & H & Hlen)]; rewrite H; cbn -[Nat.ltb].
  - reflexivity.
  - apply Nat.ltb_lt in Hlen. rewrite Hlen. reflexivity.
Qed.

End Rejected.

(** C5, as the code has it.  With the three arguments present: when the
    master key fails to decode or decodes to a length other than 32,
    [verify] returns [KeyError] having done nothing but that decode; when
    the master key decodes to 32 bytes and the licence fails to decode or
    decodes to fewer than 48 bytes, it returns [Invalid] having done
    nothing but the two decodes.  In both cases the status is neither
    [Tampered] nor [DecryptionFailed] and no HMAC or AES call is made. *)
Theorem decode_failure_classification (P : Platform)
    (d : CSankeyLicenseDecoder) (mk lic acc : string) :
  let st := verify_status P d (Some mk) (Some lic) (Some acc) in
  let tr := verify_trace P d (Some mk) (Some lic) (Some acc) in
  (crypt_string_to_binary P mk = None \/
   (exists key, crypt_string_to_binary P mk = Some key /\
                List.length key <> 32%nat) ->
   st = KeyError /\
   tr = [Set_isVerified false; Clear_payload; Call_base64_decode mk]) /\
  ((exists key, crypt_string_to_binary P mk = Some key /\
                List.length key = 32%nat) ->
   crypt_string_to_binary P lic = None \/
   (exists blob, crypt_string_to_binary P lic = Some blob /\
                 (List.length blob < 48)%nat) ->
   st = Invalid /\
   tr = [Set_isVerified false; Clear_payload; Call_base64_decode mk;
         Call_base64_decode lic]) /\
  (crypt_string_to_binary P mk = None \/
   (exists key, crypt_string_to_binary P mk = Some key /\
                List.length key <> 32%nat) \/
   crypt_string_to_binary P lic = None \/
   (exists blob, crypt_string_to_binary P lic = Some blob /\
                 (List.length blob < 48)%nat) ->
   st <> Tampered /\ st <> DecryptionFailed /\
   forall a, In a tr -> is_crypto_call a = false).
Proof.
  intros st tr. subst st tr. unfold verify_status, verify_trace.
  assert (K : crypt_string_to_binary P mk = None \/
              (exists key, crypt_string_to_binary P mk = Some key /\
                           List.length key <> 32%nat) ->
              verify P d (Some mk) (Some lic) (Some acc) =
                (KeyError, reset_object d,
                 [Set_isVerified false; Clear_payload; Call_base64_decode mk]))
    by apply verify_bad_key.
  assert (L : (exists key, crypt_string_to_binary P mk = Some key /\
                           List.length key = 32%nat) ->
              crypt_string_to_binary P lic = None \/
              (exists blob, crypt_string_to_binary P lic = Some blob /\
                            (List.length blob < 48)%nat) ->
              verify P d (Some mk) (Some lic) (Some acc) =
                (Invalid, reset_object d,
                 [Set_isVerified false; Clear_payload; Call_base64_decode mk;
                  Call_base64_decode lic])).
  { intros (key & Hk & Hlen). apply (verify_bad_license P d mk lic acc key Hk Hlen). }
  split; [|split].
  - intros H. rewrite (K H). split; reflexivity.
  - intros Hk Hl. rewrite (L Hk Hl). split; reflexivity.
  - intros H.
    assert (E : verify P d (Some mk) (Some lic) (Some acc) =
                  (KeyError, reset_object d,
                   [Set_isVerified false; Clear_payload;
                    Call_base64_decode mk]) \/
                verify P d (Some mk) (Some lic) (Some acc) =
                  (Invalid, reset_object d,
                   [Set_isVerified false; Clear_payload;
                    Call_base64_decode mk; Call_base64_decode lic])).
    { destruct (crypt_string_to_binary P mk) as [key|] eqn:Hk.
      - destruct (Nat.eq_dec (List.length key) 32) as [Hlen | Hlen].
        + right. apply L; [exists key; split; [reflexivity | exact Hlen]|].
          destruct H as [H | [(key' & Hk' & Hne) | H]];
            [discriminate | congruence | exact H].
        + left. apply K. right. exists key. split; [reflexivity | exact Hlen].
      - left. apply K. left. reflexivity. }
    destruct E as [-> | ->]; cbn [fst snd];
      (split; [discriminate | split; [discriminate |]]);
      intros a Ha; simpl in Ha;
      repeat (destruct Ha as [<- | Ha]; [reflexivity |]); destruct Ha.
Qed.

(** A malformed key gives [KeyError]; a good key with a 40-byte licence
    gives [Invalid]. *)
Lemma decode_failure_witness :
  verify_status Demo.platform new_decoder (Some "not*base64")
    (Some Demo.license_2030) (Some "1234") = KeyError /\
  verify_status Demo.platform new_decoder (Some Demo.masterKeyB64)
    (Some "AAAAAAAAAAAAAAAAAAAAAAAAAAAAAAAAAAAAAAAAAAAAAAAAAAAAAA==")
    (Some "1234") = Invalid.
Proof.
  split.
  - apply (decode_failure_classification Demo.platform new_decoder
             "not*base64" Demo.license_2030 "1234").
    left. vm_compute. reflexivity.
  - apply (decode_failure_classification Demo.platform new_decoder
             Demo.masterKeyB64
             "AAAAAAAAAAAAAAAAAAAAAAAAAAAAAAAAAAAAAAAAAAAAAAAAAAAAAA=="
             "1234").
    + eexists. split; [lazy; reflexivity | reflexivity].
    + right. eexists. split; [lazy; reflexivity | lazy; lia].
Defined.

(** C5 as the specification words it gives [Invalid] to every call whose
    licence fails to decode; but the key is decoded first, and when both
    are malformed the call returns [KeyError]. *)
Lemma decode_failure_counterexample :
  crypt_string_to_binary Demo.platform "!!!!" = None /\
  verify_status Demo.platform new_decoder (Some "not*base64") (Some "!!!!")
    (Some "1234") = KeyError.
Proof. split; vm_compute; reflexivity. Qed.

(** C6, as the code has it.  When any of the three arguments is a null
    pointer, [verify] returns [Invalid] at once: it has lowered the flag
    and cleared the payload and done nothing else - no base64 decode, no
    cryptographic call.  (An empty string is not a null pointer and is not
    rejected here.) *)
Theorem null_inputs_rejected (P : Platform) (d : CSankeyLicenseDecoder)
    (mk lic acc : cstr) :
  mk = None \/ lic = None \/ acc = None ->
  verify_status P d mk lic acc = Invalid /\
  verify_object P d mk lic acc = reset_object d /\
  verify_trace P d mk lic acc = [Set_isVerified false; Clear_payload].
Proof.
  intros H. unfold verify_status, verify_object, verify_trace.
  rewrite (verify_null_input P d mk lic acc H). repeat split.
Qed.

Lemma null_inputs_witness :
  verify_status Demo.platform new_decoder (Some Demo.masterKeyB64)
    (Some Demo.license_2030) None = Invalid /\
  verify_trace Demo.platform new_decoder None (Some Demo.license_2030)
    (Some "1234") = [Set_isVerified false; Clear_payload].
Proof.
  split.
  - apply (null_inputs_rejected Demo.platform new_decoder
             (Some Demo.masterKeyB64) (Some Demo.license_2030) None).
    right. right. reflexivity.
  - apply (null_inputs_rejected Demo.platform new_decoder None
             (Some Demo.license_2030) (Some "1234")).
    left. reflexivity.
Defined.

(** C6 as the specification words it also rejects empty inputs with
    [Invalid] before anything is decoded.  An empty master key is decoded
    and gives [KeyError]; an empty account id goes through the whole
    protocol, and a licence sealed for the empty account id is [Valid]. *)
Lemma empty_input_counterexample :
  verify Demo.platform new_decoder (Some "") (Some Demo.license_2030)
    (Some "1234")
  = (KeyError, new_decoder,
     [Set_isVerified false; Clear_payload; Call_base64_decode ""]) /\
  verify_status Demo.platform new_decoder (Some Demo.masterKeyB64)
    (Some (Demo.seal Demo.key_bytes Demo.iv_bytes
             (Demo.object_text [("eaName", "MyEA")]) ""))
    (Some "") = Valid.
Proof. split; vm_compute; reflexivity. Qed.

(* ------------------------------------------------------------------ *)
(** ** The envelope layout *)

Lemma envelope_split (blob : bytes) :
  blob = (envelope_iv blob ++ envelope_hmac blob ++ envelope_cipher blob)%list.
Proof.
  unfold envelope_iv, envelope_hmac, envelope_cipher.
  replace (skipn 48 blob) with (skipn 32 (skipn 16 blob))
    by (rewrite skipn_skipn; reflexivity).
  rewrite (firstn_skipn 32 (skipn 16 blob)).
  rewrite (firstn_skipn 16 blob). reflexivity.
Qed.

(** C7.  When the licence decodes to at least 48 bytes (and the key to 32),
    [verify] cuts it into [iv], the first 16 bytes, [hmac], the next 32,
    and [cipher], the rest; the one HMAC call it makes is under the master
    key on exactly [iv ++ cipher ++ accountId bytes]; the stored tag it
    compares with is [hmac], and a decryption, if it comes to one, is of
    [cipher] under the master key with [iv]. *)
Theorem envelope_layout (P : Platform) (d : CSankeyLicenseDecoder)
    (mk lic acc : string) (key blob : bytes) :
  decodes P mk lic key blob ->
  let iv := envelope_iv blob in
  let mac := envelope_hmac blob in
  let ct := envelope_cipher blob in
  blob = (iv ++ mac ++ ct)%list /\
  List.length iv = 16%nat /\ List.length mac = 32%nat /\
  exists rest,
    verify_trace P d (Some mk) (Some lic) (Some acc) =
      ([Set_isVerified false; Clear_payload; Call_base64_decode mk;
        Call_base64_decode lic;
        Call_hmac_sha256 key (iv ++ ct ++ list_byte_of_string acc)]
       ++ rest)%list /\
    forall a, In a rest ->
      match a with
      | Call_hmac_sha256 _ _ => False
      | Call_memcmp _ stored => stored = mac
      | Call_aes_cbc_decrypt k iv' c => k = key /\ iv' = iv /\ c = ct
      | _ => True
      end.
Proof.
  intros (Hk & Hklen & Hb & Hblen) iv mac ct. subst iv mac ct.
  split; [apply envelope_split|].
  split; [unfold envelope_iv; rewrite length_firstn; lia|].
  split; [apply envelope_hmac_length; exact Hblen|].
  assert (Hk32 : negb (Nat.eqb (List.length key) 32) = false)
    by (rewrite Hklen; reflexivity).
  assert (Hb48 : Nat.ltb (List.length blob) 48 = false)
    by (apply Nat.ltb_ge; exact Hblen).
  verify_unfold.
  rewrite Hk; cbn -[Nat.ltb]. rewrite Hk32; cbn -[Nat.ltb].
  rewrite Hb; cbn -[Nat.ltb]. rewrite Hb48; cbn -[Nat.ltb].
  repeat verify_step;
    (eexists; split; [reflexivity|]);
    intros a Ha; simpl in Ha;
    repeat (destruct Ha as [<- | Ha]; [first [exact I | reflexivity | tauto]|]);
    destruct Ha.
Qed.

(** On the 2030 licence the message given to the checksum is the IV, the
    ciphertext and the four bytes of 1234, one after the other. *)
Lemma envelope_layout_witness :
  exists blob rest,
    Demo.base64 Demo.license_2030 = Some blob /\
    blob = (envelope_iv blob ++ envelope_hmac blob
            ++ envelope_cipher blob)%list /\
    envelope_iv blob = Demo.iv_bytes /\
    verify_trace Demo.platform new_decoder (Some Demo.masterKeyB64)
      (Some Demo.license_2030) (Some "1234") =
      ([Set_isVerified false; Clear_payload;
        Call_base64_decode Demo.masterKeyB64;
        Call_base64_decode Demo.license_2030;
        Call_hmac_sha256 Demo.key_bytes
          (envelope_iv blob ++ envelope_cipher blob
           ++ ["1"%byte; "2"%byte; "3"%byte; "4"%byte])]
       ++ rest)%list.
Proof.
  edestruct (envelope_layout Demo.platform new_decoder Demo.masterKeyB64
               Demo.license_2030 "1234")
    as (Hsplit & _ & _ & rest & Htr & _).
  - repeat split; try (lazy; reflexivity). lazy. lia.
  - eexists. exists rest.
    split; [lazy; reflexivity|].
    split; [exact Hsplit|].
    split; [vm_compute; reflexivity|].
    exact Htr.
Defined.

(* ------------------------------------------------------------------ *)
(** ** Boolean coercion *)

(** C9.  On a verified object, for a key the payload has:
    [getValueAsBool] returns a JSON boolean as it is; for a string it
    returns true exactly when the string is [true], [1] or [yes]
    (compared as they are written) and false otherwise, never the default;
    for a number it returns whether the number differs from 0; for null,
    an array or an object it returns the caller's default. *)
Theorem bool_coercion (d : CSankeyLicenseDecoder) (key : string)
    (dflt : bool) (v : json) :
  isVerified_ d = true ->
  Json.at_key (payload_ d) key = Some v ->
  let r := getValueAsBool d (Some key) dflt in
  match v with
  | Jboolean b => r = b
  | Jstring s => r = true <-> (s = "true" \/ s = "1" \/ s = "yes")
  | Jnumber_integer z | Jnumber_unsigned z => r = true <-> z <> 0
  | Jnumber_float f => r = negb (PrimFloat.eqb f PrimFloat.zero)
  | Jnull | Jarray _ | Jobject _ => r = dflt
  end.
Proof.
  intros Hv Hk r. subst r. unfold getValueAsBool. rewrite Hv, Hk.
  destruct v; try reflexivity.
  - simpl. rewrite negb_true_iff, Z.eqb_neq. tauto.
  - simpl. rewrite negb_true_iff, Z.eqb_neq. tauto.
  - rewrite !orb_true_iff, !String.eqb_eq. tauto.
Qed.

(** On the licence with [active] = yes and [trial] = True: the first reads
    as true under a false default, the second as false under a true
    default. *)
Lemma bool_coercion_witness :
  getValueAsBool
    (verify_object Demo.platform new_decoder (Some Demo.masterKeyB64)
       (Some Demo.license_flags) (Some "1234"))
    (Some "active") false = true /\
  getValueAsBool
    (verify_object Demo.platform new_decoder (Some Demo.masterKeyB64)
       (Some Demo.license_flags) (Some "1234"))
    (Some "trial") true <> true.
Proof.
  split.
  - apply (bool_coercion
             (verify_object Demo.platform new_decoder (Some Demo.masterKeyB64)
                (Some Demo.license_flags) (Some "1234"))
             "active" false (Jstring "yes")).
    + vm_compute. reflexivity.
    + vm_compute. reflexivity.
    + right. right. reflexivity.
  - intros H.
    apply (bool_coercion
             (verify_object Demo.platform new_decoder (Some Demo.masterKeyB64)
                (Some Demo.license_flags) (Some "1234"))
             "trial" true (Jstring "True")) in H.
    + destruct H as [H | [H | H]]; discriminate H.
    + vm_compute. reflexivity.
    + vm_compute. reflexivity.
Defined.

(* ------------------------------------------------------------------ *)
(** ** The date parser *)

Lemma get_lit_same (c : ascii) (s : string) :
  GetTime.get_lit c (String c s) = Some s.
Proof. unfold GetTime.get_lit. rewrite Ascii.eqb_refl. reflexivity. Qed.

(** Moves an unfolded [get_time] past a conversion that was read and the
    literal after it. *)
Ltac next_field :=
  cbn [GetTime.bind GetTime.more]; rewrite ?get_lit_same; cbn [GetTime.bind].

Section DateParser.

Import GetTime MkGmTime IsoPattern.

Lemma digit_char_ok (n : Z) :
  0 <= n <= 9 -> is_digit (digit_char n) = true /\ digit_val (digit_char n) = n.
Proof.
  intros H. rewrite <- (Z2Nat.id n) by lia.
  assert (K : (Z.to_nat n < 10)%nat) by lia.
  generalize dependent (Z.to_nat n). intros k K.
  do 10 (destruct k as [|k]; [split; reflexivity|]). lia.
Qed.

Lemma read_digits_step (w : nat) (acc : Z) (cnt : nat) (c : ascii)
    (s : string) :
  is_digit c = true ->
  read_digits (S w) acc cnt (String c s)
    = read_digits w (acc * 10 + digit_val c) (S cnt) s.
Proof. intros H. cbn [read_digits]. rewrite H. reflexivity. Qed.

Lemma read_two_digits (n acc : Z) (cnt : nat) (rest : string) :
  0 <= n <= 99 ->
  read_digits 2 acc cnt (two_digits n rest)
    = (acc * 100 + n, S (S cnt), rest).
Proof.
  intros H. unfold two_digits.
  destruct (digit_char_ok (n / 10)) as [D1 V1];
    [Z.div_mod_to_equations; lia|].
  destruct (digit_char_ok (n mod 10)) as [D2 V2];
    [Z.div_mod_to_equations; lia|].
  rewrite (read_digits_step 1) by exact D1.
  rewrite (read_digits_step 0) by exact D2.
  rewrite V1, V2. cbn [read_digits].
  f_equal. f_equal. Z.div_mod_to_equations; lia.
Qed.

Lemma get_int_two_digits (n lo hi : Z) (rest : string) :
  0 <= n <= 99 -> lo <= n <= hi ->
  get_int 2 lo hi (two_digits n rest) = Some (n, rest).
Proof.
  intros Hn Hr. unfold get_int. rewrite read_two_digits by exact Hn.
  cbn [Nat.eqb]. replace (0 * 100 + n) with n by lia.
  destruct (Z.leb_spec lo n); [|lia].
  destruct (Z.leb_spec n hi); [|lia]. reflexivity.
Qed.

Lemma get_int_four_digits (n : Z) (rest : string) :
  0 <= n <= 9999 ->
  get_int 4 0 9999 (four_digits n rest) = Some (n, rest).
Proof.
  intros Hn. unfold get_int, four_digits.
  destruct (digit_char_ok (n / 1000)) as [D1 V1];
    [Z.div_mod_to_equations; lia|].
  destruct (digit_char_ok (n / 100 mod 10)) as [D2 V2];
    [Z.div_mod_to_equations; lia|].
  rewrite (read_digits_step 3) by exact D1.
  rewrite (read_digits_step 2) by exact D2.
  rewrite V1, V2.
  rewrite read_two_digits by (Z.div_mod_to_equations; lia).
  cbn [Nat.eqb].
  replace (((0 * 10 + n / 1000) * 10 + n / 100 mod 10) * 100 + n mod 100)
    with n by (Z.div_mod_to_equations; lia).
  destruct (Z.leb_spec 0 n); [|lia].
  destruct (Z.leb_spec n 9999); [|lia]. reflexivity.
Qed.

Lemma digit_not_space (c : ascii) : is_digit c = true -> is_space c = false.
Proof.
  unfold is_digit, is_space. cbv zeta.
  generalize (Z.of_nat (nat_of_ascii c)). intros n H.
  apply andb_true_iff in H. destruct H as [H1 H2].
  apply Z.leb_le in H1. apply Z.leb_le in H2.
  apply orb_false_iff. split.
  - apply Z.eqb_neq. lia.
  - apply andb_false_iff. right. apply Z.leb_gt. lia.
Qed.

(** The sentry stops at a digit. *)
Lemma skip_ws_four_digits (n : Z) (rest : string) :
  0 <= n <= 9999 -> skip_ws (four_digits n rest) = four_digits n rest.
Proof.
  intros Hn. unfold four_digits. cbn [skip_ws].
  destruct (digit_char_ok (n / 1000)) as [D _];
    [Z.div_mod_to_equations; lia|].
  rewrite (digit_not_space _ D). reflexivity.
Qed.

(** The sentry skips white space before the text. *)
Lemma skip_ws_white (lead s : string) :
  white lead = true -> skip_ws (lead ++ s) = skip_ws s.
Proof.
  induction lead as [|c lead IH]; intros H; [reflexivity|].
  cbn [white] in H. apply andb_true_iff in H. destruct H as [Hc Hl].
  cbn [append skip_ws]. rewrite Hc. apply IH, Hl.
Qed.

Lemma skip_ws_only_white (lead : string) :
  white lead = true -> skip_ws lead = "".
Proof.
  induction lead as [|c lead IH]; intros H; [reflexivity|].
  cbn [white] in H. apply andb_true_iff in H. destruct H as [Hc Hl].
  cbn [skip_ws]. rewrite Hc. apply IH, Hl.
Qed.

Lemma get_time_skips_white (lead s : string) :
  white lead = true -> get_time (lead ++ s) = get_time s.
Proof.
  intros H. unfold get_time. rewrite (skip_ws_white lead s H). reflexivity.
Qed.

(** [get_time] reads the six fields of a text laid out as
    [YYYY-MM-DDTHH:MM:SS] and leaves what follows unread. *)
Lemma get_time_iso_text (Y m d H M S : Z) (rest : string) :
  0 <= Y <= 9999 -> 1 <= m <= 12 -> 1 <= d <= 31 ->
  0 <= H <= 23 -> 0 <= M <= 59 -> 0 <= S <= 60 ->
  get_time (iso_text Y m d H M S rest)
    = Some (mk_tm S M H d (m - 1) (Y - 1900), rest).
Proof.
  intros HY Hm Hd HH HM HS. unfold get_time, iso_text.
  rewrite skip_ws_four_digits by exact HY. cbv zeta.
  rewrite get_int_four_digits by exact HY. next_field.
  rewrite get_int_two_digits by lia. next_field.
  rewrite get_int_two_digits by lia. next_field.
  rewrite get_int_two_digits by lia. next_field.
  rewrite get_int_two_digits by lia. next_field.
  rewrite get_int_two_digits by lia. next_field.
  reflexivity.
Qed.


Lemma days_before_month_range (y mon : Z) :
  0 <= mon <= 11 -> 0 <= days_before_month y mon <= 335.
Proof.
  intros H. rewrite <- (Z2Nat.id mon) by lia.
  assert (K : (Z.to_nat mon < 12)%nat) by lia.
  generalize dependent (Z.to_nat mon). intros k K.
  unfold days_before_month, days_before_month_common.
  do 12 (destruct k as [|k];
         [destruct (is_leap y); cbv; split; discriminate|]).
  lia.
Qed.

Lemma days_before_year_range (y : Z) :
  1970 <= y <= 2037 -> 0 <= days_before_year y <= 24472.
Proof.
  intros H. unfold days_before_year, leaps_through.
  Z.div_mod_to_equations. lia.
Qed.

(** From 1970 to 2037 the seconds since the epoch fit a 32-bit [long]. *)
Lemma epoch_seconds_range (Y m d H M S : Z) :
  1970 <= Y <= 2037 -> 1 <= m <= 12 -> 1 <= d <= 31 ->
  0 <= H <= 23 -> 0 <= M <= 59 -> 0 <= S <= 60 ->
  0 <= epoch_seconds (mk_tm S M H d (m - 1) (Y - 1900)) < 2 ^ 31.
Proof.
  intros HY Hm Hd HH HM HS. unfold epoch_seconds.
  cbn [tm_year tm_mon tm_mday tm_hour tm_min tm_sec].
  replace (Y - 1900 + 1900) with Y by lia.
  pose proof (days_before_year_range Y HY).
  pose proof (days_before_month_range Y (m - 1) ltac:(lia)).
  change (2 ^ 31) with 2147483648. nia.
Qed.

End DateParser.




(* ------------------------------------------------------------------ *)
(** * Further properties of the decoder *)

(** ** The status of a call, stage by stage *)

Section Classification.

Variable P : Platform.

(** The status of a call with three non-null arguments, read off the
    results of the services in the order [verify] consults them. *)
Lemma verify_status_tree d m l a :
  verify_status P d (Some m) (Some l) (Some a) =
  match crypt_string_to_binary P m with
  | None => KeyError
  | Some key =>
      if negb (Nat.eqb (List.length key) 32) then KeyError else
      match crypt_string_to_binary P l with
      | None => Invalid
      | Some blob =>
          if Nat.ltb (List.length blob) 48 then Invalid else
          match crypt_hmac_sha256 P key (hmac_input blob a) with
          | None => DecryptionFailed
          | Some tag =>
              if negb (memcmp (fill_resized 32 tag) (envelope_hmac blob) 32
                       =? 0)
              then Tampered else
              match crypt_aes256_cbc_decrypt P key (envelope_iv blob)
                      (envelope_cipher blob) with
              | None => DecryptionFailed
              | Some plain =>
                  match json_parse P (string_of_list_byte plain) with
                  | None => ParseError
                  | Some j => if expired_at P j then Expired else Valid
                  end
              end
          end
      end
  end.
Proof.
  unfold expired_at. verify_run; reflexivity.
Qed.

Lemma verify_status_null d mk lic acc :
  mk = None \/ lic = None \/ acc = None ->
  verify_status P d mk lic acc = Invalid.
Proof.
  intros H. unfold verify_status. rewrite (verify_null_input P d mk lic acc H).
  reflexivity.
Qed.


Lemma expired_at_true_iff (j : json) :
  expired_at P j = true <->
  exists s, string_at j "expiry" = Some s /\
            0 < parseISODateTime s < time_now P.
Proof.
  unfold expired_at. destruct (string_at j "expiry") as [s|].
  - rewrite andb_true_iff, !Z.ltb_lt. split.
    + intros H. exists s. split; [reflexivity | exact H].
    + intros (s' & E & H). injection E as <-. exact H.
  - split; [discriminate | intros (s & E & _); discriminate].
Qed.

Lemma expired_at_false_iff (j : json) :
  expired_at P j = false <->
  forall s, string_at j "expiry" = Some s ->
            0 < parseISODateTime s -> time_now P <= parseISODateTime s.
Proof.
  unfold expired_at. destruct (string_at j "expiry") as [s|].
  - rewrite andb_false_iff, !Z.ltb_ge. split.
    + intros H s' E Hpos. injection E as <-. lia.
    + intros H. destruct (Z.le_gt_cases (parseISODateTime s) 0) as [L|G];
        [left; exact L | right; apply (H s eq_refl); lia].
  - split; [intros _ s E; discriminate | reflexivity].
Qed.

End Classification.

(** Turns the boolean tests of [verify] found among the hypotheses into
    the facts they decide. *)
Ltac stage_facts :=
  repeat match goal with
    | H : negb _ = false |- _ => apply negb_false_iff in H
    | H : negb _ = true |- _ => apply negb_true_iff in H
    | H : (_ =? _) = true |- _ => apply Z.eqb_eq in H
    | H : (_ =? _) = false |- _ => apply Z.eqb_neq in H
    | H : Nat.eqb _ _ = true |- _ => apply Nat.eqb_eq in H
    | H : Nat.eqb _ _ = false |- _ => apply Nat.eqb_neq in H
    | H : Nat.ltb _ _ = true |- _ => apply Nat.ltb_lt in H
    | H : Nat.ltb _ _ = false |- _ => apply Nat.ltb_ge in H
    end.

(** Splits the decision tree of [verify_status_tree] into its leaves. *)
Ltac tree_leaves :=
  repeat match goal with
    | |- context [match ?x with _ => _ end] =>
        innermost x; destruct x eqn:?
    end;
  stage_facts.

(** Confronts what a statement says about the services with what the leaf
    at hand knows about them. *)
Ltac stage_clash :=
  repeat match goal with
    | H : exists _, _ |- _ => destruct H
    | H : _ /\ _ |- _ => destruct H
    | H : decodes _ _ _ _ _ |- _ => unfold decodes in H
    | H : mac_passes _ _ _ _ |- _ => unfold mac_passes in H
    | H : reaches_expiry_check _ _ _ _ _ |- _ =>
        unfold reaches_expiry_check in H
    | H : Some _ = Some _ |- _ => injection H as H; subst
    | H : @eq cstr _ _ |- _ => first [discriminate H | injection H as H; subst]
    | H1 : ?x = Some ?a, H2 : ?x = Some ?b |- _ =>
        rewrite H1 in H2; injection H2 as H2; subst
    | H1 : ?x = None, H2 : ?x = Some _ |- _ =>
        rewrite H1 in H2; discriminate H2
    | H1 : ?x = Some _, H2 : ?x = None |- _ =>
        rewrite H1 in H2; discriminate H2
    | H1 : ?x = true, H2 : ?x = false |- _ =>
        rewrite H1 in H2; discriminate H2
    end.

(** X2.  [verify] returns [Valid] exactly when all three arguments are
    present, both decodes pass, the computed tag equals the stored one, the
    decryption and the JSON parse succeed, and the payload has no string
    [expiry] with a positive timestamp below the clock; at the very second
    of its expiry a licence is still valid.  The object then holds the
    parsed payload with the flag up. *)
Theorem valid_iff (P : Platform) (d : CSankeyLicenseDecoder)
    (mk lic acc : cstr) :
  (verify_status P d mk lic acc = Valid <->
   exists m l a j,
     mk = Some m /\ lic = Some l /\ acc = Some a /\
     reaches_expiry_check P m l a j /\
     forall s, string_at j "expiry" = Some s ->
               0 < parseISODateTime s -> time_now P <= parseISODateTime s) /\
  (forall m l a j,
     mk = Some m -> lic = Some l -> acc = Some a ->
     reaches_expiry_check P m l a j ->
     verify_status P d mk lic acc = Valid ->
     verify_object P d mk lic acc = mk_decoder j true (lastStringResult_ d)).
Proof.
  split.
  - split.
    + intros Hst.
      destruct mk as [m|]; [|rewrite verify_status_null in Hst by tauto;
                              discriminate].
      destruct lic as [l|]; [|rewrite verify_status_null in Hst by tauto;
                               discriminate].
      destruct acc as [a|]; [|rewrite verify_status_null in Hst by tauto;
                               discriminate].
      rewrite verify_status_tree in Hst. revert Hst.
      tree_leaves; intros Hst; try discriminate Hst.
      exists m, l, a. eexists. repeat split; try reflexivity.
      * unfold reaches_expiry_check, decodes, mac_passes.
        eexists; eexists; eexists.
        repeat split; try eassumption.
        eexists. split; eassumption.
      * apply expired_at_false_iff. assumption.
    + intros (m & l & a & j & -> & -> & -> & Hreach & Hexp).
      destruct (verify_at_expiry_check P d m l a j Hreach) as [-> _].
      apply expired_at_false_iff in Hexp. rewrite Hexp. reflexivity.
  - intros m l a j -> -> -> Hreach Hst.
    destruct (verify_at_expiry_check P d m l a j Hreach) as [E ->].
    rewrite E in Hst. destruct (expired_at P j); [discriminate|reflexivity].
Qed.

(** Opens a statement about a call with possibly null arguments: a null
    argument gives [Invalid], the rest goes by the decision tree. *)
Ltac status_by_tree P Hst :=
  match type of Hst with
  | verify_status P ?d ?mk ?lic ?acc = _ =>
      destruct mk as [?m|];
        [|rewrite verify_status_null in Hst by tauto; try discriminate Hst];
      [destruct lic as [?l|];
        [|rewrite verify_status_null in Hst by tauto; try discriminate Hst];
       [destruct acc as [?a|];
        [|rewrite verify_status_null in Hst by tauto; try discriminate Hst];
        [rewrite verify_status_tree in Hst; revert Hst; tree_leaves;
         intros Hst; try discriminate Hst | ..] | ..] | ..]
  end.

(** X3.  [verify] returns [Expired] exactly when the call gets as far as
    the expiry check and the payload has a string [expiry] whose timestamp
    is positive and strictly below the clock.  The parsed payload is then
    left in the object, with the flag down. *)
Theorem expired_iff (P : Platform) (d : CSankeyLicenseDecoder)
    (mk lic acc : cstr) :
  (verify_status P d mk lic acc = Expired <->
   exists m l a j s,
     mk = Some m /\ lic = Some l /\ acc = Some a /\
     reaches_expiry_check P m l a j /\
     string_at j "expiry" = Some s /\
     0 < parseISODateTime s < time_now P) /\
  (forall m l a j,
     mk = Some m -> lic = Some l -> acc = Some a ->
     reaches_expiry_check P m l a j ->
     verify_status P d mk lic acc = Expired ->
     verify_object P d mk lic acc = mk_decoder j false (lastStringResult_ d)).
Proof.
  split.
  - split.
    + intros Hst. status_by_tree P Hst.
      match goal with H : expired_at P _ = true |- _ =>
        apply expired_at_true_iff in H; destruct H as (s & Hs & Hts) end.
      exists m, l, a. eexists. exists s.
      repeat split; try reflexivity; try lia; [|eassumption].
      unfold reaches_expiry_check, decodes, mac_passes.
      eexists; eexists; eexists.
      repeat split; try eassumption.
      eexists. split; eassumption.
    + intros (m & l & a & j & s & -> & -> & -> & Hreach & Hs & Hts).
      destruct (verify_at_expiry_check P d m l a j Hreach) as [-> _].
      assert (E : expired_at P j = true)
        by (apply expired_at_true_iff; exists s; split; assumption).
      rewrite E. reflexivity.
  - intros m l a j -> -> -> Hreach Hst.
    destruct (verify_at_expiry_check P d m l a j Hreach) as [E ->].
    rewrite E in Hst. destruct (expired_at P j); [reflexivity|discriminate].
Qed.

(** X4.  [verify] returns [Tampered] exactly when both decodes pass, the
    tag is computed, and its 32 bytes are not the 32 stored ones: the whole
    tag is compared, no shorter prefix is accepted. *)
Theorem tampered_iff (P : Platform) (d : CSankeyLicenseDecoder)
    (mk lic acc : cstr) :
  verify_status P d mk lic acc = Tampered <->
  exists m l a key blob tag,
    mk = Some m /\ lic = Some l /\ acc = Some a /\
    decodes P m l key blob /\
    crypt_hmac_sha256 P key (hmac_input blob a) = Some tag /\
    fill_resized 32 tag <> envelope_hmac blob.
Proof.
  split.
  - intros Hst. status_by_tree P Hst.
    exists m, l, a. eexists; eexists; eexists.
    repeat split; try reflexivity; try eassumption.
    intros E. apply tag_compare_iff in E; [contradiction | assumption].
  - intros (m & l & a & key & blob & tag & -> & -> & -> & Hdec & Ht & Hne).
    unfold verify_status.
    rewrite (verify_tag_mismatch P d m l a key blob tag Hdec Ht Hne).
    reflexivity.
Qed.

(** X5.  [verify] returns [DecryptionFailed] exactly when both decodes
    pass and either the tag cannot be computed, or the tag matches and the
    decryption fails.  A failing decryption of a licence whose tag does not
    match is never reported: that call is [Tampered]. *)
Theorem decryption_failed_iff (P : Platform) (d : CSankeyLicenseDecoder)
    (mk lic acc : cstr) :
  verify_status P d mk lic acc = DecryptionFailed <->
  exists m l a key blob,
    mk = Some m /\ lic = Some l /\ acc = Some a /\
    decodes P m l key blob /\
    (crypt_hmac_sha256 P key (hmac_input blob a) = None \/
     (mac_passes P key blob a /\
      crypt_aes256_cbc_decrypt P key (envelope_iv blob) (envelope_cipher blob)
        = None)).
Proof.
  split.
  - intros Hst. status_by_tree P Hst.
    + exists m, l, a. eexists; eexists.
      repeat split; try reflexivity; try eassumption.
      right. split; [eexists; split; eassumption | assumption].
    + exists m, l, a. eexists; eexists.
      repeat split; try reflexivity; try eassumption.
      left. assumption.
  - intros (m & l & a & key & blob & -> & -> & -> & Hdec & H).
    rewrite verify_status_tree.
    destruct H as [H | [H1 H2]]; tree_leaves; stage_clash;
      try reflexivity; try lia; try congruence.
Qed.

(** X6.  [verify] returns [ParseError] exactly when the call gets through
    the tag comparison and the decryption and the JSON parser rejects the
    plaintext. *)
Theorem parse_error_iff (P : Platform) (d : CSankeyLicenseDecoder)
    (mk lic acc : cstr) :
  verify_status P d mk lic acc = ParseError <->
  exists m l a key blob plain,
    mk = Some m /\ lic = Some l /\ acc = Some a /\
    decodes P m l key blob /\ mac_passes P key blob a /\
    crypt_aes256_cbc_decrypt P key (envelope_iv blob) (envelope_cipher blob)
      = Some plain /\
    json_parse P (string_of_list_byte plain) = None.
Proof.
  split.
  - intros Hst. status_by_tree P Hst.
    exists m, l, a. eexists; eexists; eexists.
    repeat split; try reflexivity; try eassumption.
    eexists. split; eassumption.
  - intros (m & l & a & key & blob & plain & -> & -> & -> & Hdec & Hmac
            & Haes & Hj).
    rewrite verify_status_tree.
    tree_leaves; stage_clash; try reflexivity; try lia; try congruence.
Qed.

(** X7.  [verify] returns [KeyError] exactly when the three arguments are
    present and the master key fails to decode or does not decode to 32
    bytes - whatever the licence and the account id are. *)
Theorem key_error_iff (P : Platform) (d : CSankeyLicenseDecoder)
    (mk lic acc : cstr) :
  verify_status P d mk lic acc = KeyError <->
  exists m,
    mk = Some m /\ lic <> None /\ acc <> None /\
    (crypt_string_to_binary P m = None \/
     exists key, crypt_string_to_binary P m = Some key /\
                 List.length key <> 32%nat).
Proof.
  split.
  - intros Hst. status_by_tree P Hst.
    + exists m. repeat split; try discriminate.
      right. eexists. split; eassumption.
    + exists m. repeat split; try discriminate. left. assumption.
  - intros (m & -> & Hl & Ha & H).
    destruct lic as [l|]; [|contradiction].
    destruct acc as [a|]; [|contradiction].
    unfold verify_status. rewrite (verify_bad_key P d m l a H). reflexivity.
Qed.

(** X8.  [verify] returns [Invalid] exactly when an argument is null, or
    the master key decodes to 32 bytes and the licence fails to decode or
    decodes to fewer than 48 bytes.  A licence of exactly 48 bytes - an
    empty ciphertext - is not turned away here. *)
Theorem invalid_iff (P : Platform) (d : CSankeyLicenseDecoder)
    (mk lic acc : cstr) :
  verify_status P d mk lic acc = Invalid <->
  (mk = None \/ lic = None \/ acc = None) \/
  exists m l key,
    mk = Some m /\ lic = Some l /\ acc <> None /\
    crypt_string_to_binary P m = Some key /\ List.length key = 32%nat /\
    (crypt_string_to_binary P l = None \/
     exists blob, crypt_string_to_binary P l = Some blob /\
                  (List.length blob < 48)%nat).
Proof.
  split.
  - intros Hst. status_by_tree P Hst; try tauto.
    + right. exists m, l. eexists.
      repeat split; try reflexivity; try eassumption; try discriminate.
      right. eexists. split; eassumption.
    + right. exists m, l. eexists.
      repeat split; try reflexivity; try eassumption; try discriminate.
      left. assumption.
  - intros [H | (m & l & key & -> & -> & Ha & Hk & Hlen & H)].
    + apply verify_status_null. exact H.
    + destruct acc as [a|]; [|contradiction].
      unfold verify_status.
      rewrite (verify_bad_license P d m l a key Hk Hlen H). reflexivity.
Qed.

(* ------------------------------------------------------------------ *)
(** ** Calls in sequence *)

Lemma clear_clear (j : json) : Json.clear (Json.clear j) = Json.clear j.
Proof. destruct j; reflexivity. Qed.

(** The status and the actions of a call do not depend on the object. *)
Lemma verify_independent_of_object (P : Platform)
    (d d0 : CSankeyLicenseDecoder) (mk lic acc : cstr) :
  verify_status P d0 mk lic acc = verify_status P d mk lic acc /\
  verify_trace P d0 mk lic acc = verify_trace P d mk lic acc.
Proof. verify_run; split; reflexivity. Qed.

(** The flag a call leaves does not depend on the object, and neither does
    the payload under a raised flag. *)
Lemma verify_object_agree (P : Platform) (d d0 : CSankeyLicenseDecoder)
    (mk lic acc : cstr) :
  isVerified_ (verify_object P d0 mk lic acc)
    = isVerified_ (verify_object P d mk lic acc) /\
  (isVerified_ (verify_object P d mk lic acc) = true ->
   payload_ (verify_object P d0 mk lic acc)
     = payload_ (verify_object P d mk lic acc)).
Proof. verify_run; split; solve [reflexivity | discriminate]. Qed.

(** X1.  A call of [verify] takes nothing over from earlier calls.  For
    the same arguments and the same answers of the platform during the call
    (the clock value it reads included), two objects in any two states give
    the same status, make the same calls, end with the same flag and, under
    a raised flag, the same payload, and answer every getter alike
    afterwards.  In particular a later call - at any clock value and with
    any arguments - on an object an earlier call has used goes as it would
    have gone on the object as it was before.  No call touches the string
    kept for [GetValue]. *)
Theorem verify_forgets_prior_state (P : Platform)
    (d d0 : CSankeyLicenseDecoder) (mk lic acc : cstr) :
  let d1 := verify_object P d mk lic acc in
  let d2 := verify_object P d0 mk lic acc in
  verify_status P d0 mk lic acc = verify_status P d mk lic acc /\
  verify_trace P d0 mk lic acc = verify_trace P d mk lic acc /\
  isVerified_ d2 = isVerified_ d1 /\
  (isVerified_ d1 = true -> payload_ d2 = payload_ d1) /\
  (forall key : cstr,
     (forall dflt, getValue d2 key dflt = getValue d1 key dflt) /\
     (forall dflt, getValueAsInt d2 key dflt = getValueAsInt d1 key dflt) /\
     (forall dflt, getValueAsBool d2 key dflt = getValueAsBool d1 key dflt) /\
     (forall dflt,
        getValueAsDouble P d2 key dflt = getValueAsDouble P d1 key dflt) /\
     (forall dflt,
        getValueAsDateTime d2 key dflt = getValueAsDateTime d1 key dflt) /\
     hasKey d2 key = hasKey d1 key) /\
  (forall (now' : Z) (mk' lic' acc' : cstr),
     verify_status (with_time P now') d1 mk' lic' acc'
       = verify_status (with_time P now') d mk' lic' acc' /\
     verify_trace (with_time P now') d1 mk' lic' acc'
       = verify_trace (with_time P now') d mk' lic' acc') /\
  lastStringResult_ d1 = lastStringResult_ d.
Proof.
  intros d1 d2.
  destruct (verify_independent_of_object P d d0 mk lic acc) as [Hs Ht].
  destruct (verify_object_agree P d d0 mk lic acc) as [Hf Hp].
  fold d1 d2 in Hf, Hp.
  split; [exact Hs|]. split; [exact Ht|]. split; [exact Hf|].
  split; [exact Hp|]. split; [|split].
  - intros key.
    destruct (isVerified_ d1) eqn:E.
    + specialize (Hp eq_refl).
      unfold getValue, getValueAsInt, getValueAsBool, getValueAsDouble,
        getValueAsDateTime, hasKey.
      rewrite Hf, Hp, E. repeat split; reflexivity.
    + destruct (getters_gated P d1 E key) as (A1 & A2 & A3 & A4 & A5 & A6).
      destruct (getters_gated P d2 Hf key) as (B1 & B2 & B3 & B4 & B5 & B6).
      split; [intros; rewrite A1, B1; reflexivity|].
      split; [intros; rewrite A2, B2; reflexivity|].
      split; [intros; rewrite A3, B3; reflexivity|].
      split; [intros; rewrite A4, B4; reflexivity|].
      split; [intros; rewrite A5, B5; reflexivity|].
      rewrite A6, B6. reflexivity.
  - intros now' mk' lic' acc'. apply verify_independent_of_object.
  - subst d1. clear. verify_run; reflexivity.
Qed.

(** The valid 2030 licence on a fresh object and on one that an earlier
    call for another account left locked: the same account id is read
    afterwards. *)
Lemma verify_forgets_prior_state_witness :
  getValue
    (verify_object Demo.platform
       (verify_object Demo.platform new_decoder (Some Demo.masterKeyB64)
          (Some Demo.license_2030) (Some "4321"))
       (Some Demo.masterKeyB64) (Some Demo.license_2030) (Some "1234"))
    (Some "accountId") None = "1234".
Proof.
  destruct (verify_forgets_prior_state Demo.platform new_decoder
              (verify_object Demo.platform new_decoder
                 (Some Demo.masterKeyB64) (Some Demo.license_2030)
                 (Some "4321"))
              (Some Demo.masterKeyB64) (Some Demo.license_2030)
              (Some "1234")) as (_ & _ & _ & _ & G & _).
  destruct (G (Some "accountId")) as (H & _).
  rewrite H. vm_compute. reflexivity.
Defined.

(** X9.  Whenever [verify] calls into HMAC or AES the key has exactly 32
    bytes, the IV given to AES has exactly 16, and the two buffers handed
    to [memcmp] hold exactly the 32 bytes it reads - whatever the platform
    returned as the tag. *)
Theorem crypto_argument_sizes (P : Platform) (d : CSankeyLicenseDecoder)
    (mk lic acc : cstr) :
  let tr := verify_trace P d mk lic acc in
  (forall key data, In (Call_hmac_sha256 key data) tr ->
                    List.length key = 32%nat) /\
  (forall a b, In (Call_memcmp a b) tr ->
               List.length a = 32%nat /\ List.length b = 32%nat) /\
  (forall key iv cipher, In (Call_aes_cbc_decrypt key iv cipher) tr ->
                         List.length key = 32%nat /\ List.length iv = 16%nat).
Proof.
  verify_run; stage_facts; (split; [|split]); intros; action_clash;
    repeat split;
    first [ assumption
          | apply fill_resized_length
          | apply envelope_hmac_length; assumption
          | unfold envelope_iv; rewrite length_firstn; lia ].
Qed.

(** The ranks of the actions of a call, path by path. *)
Lemma verify_rank_shapes (P : Platform) (d : CSankeyLicenseDecoder)
    (mk lic acc : cstr) :
  In (map rank (verify_trace P d mk lic acc))
     [[0; 0]; [0; 0; 1]; [0; 0; 1; 1]; [0; 0; 1; 1; 2];
      [0; 0; 1; 1; 2; 3]; [0; 0; 1; 1; 2; 3; 4];
      [0; 0; 1; 1; 2; 3; 4; 5];
      [0; 0; 1; 1; 2; 3; 4; 5; 6; 9];
      [0; 0; 1; 1; 2; 3; 4; 5; 6; 7; 9];
      [0; 0; 1; 1; 2; 3; 4; 5; 6; 7; 8];
      [0; 0; 1; 1; 2; 3; 4; 5; 6; 7; 8; 9]].
Proof.
  verify_run; cbn [map rank In];
    repeat first [left; reflexivity | right].
Qed.

(** X10.  One call of [verify] decodes base64 at most twice and calls
    HMAC, [memcmp], AES, the JSON parser, the date parser and the clock at
    most once each. *)
Theorem verify_call_counts (P : Platform) (d : CSankeyLicenseDecoder)
    (mk lic acc : cstr) :
  let ranks := map rank (verify_trace P d mk lic acc) in
  (count_occ Z.eq_dec ranks 1%Z <= 2)%nat /\
  forall r, 2 <= r <= 8 -> (count_occ Z.eq_dec ranks r <= 1)%nat.
Proof.
  intros ranks. subst ranks.
  assert (R : forall r, 2 <= r <= 8 ->
                exists k, r = Z.of_nat k /\ (2 <= k <= 8)%nat)
    by (intros r Hr; exists (Z.to_nat r); lia).
  pose proof (verify_rank_shapes P d mk lic acc) as H.
  generalize dependent (map rank (verify_trace P d mk lic acc)).
  intros ranks H. cbn [In] in H.
  repeat (destruct H as [<- | H]; [split; [vm_compute; lia|];
    intros r Hr; destruct (R r Hr) as (k & -> & Hk);
    do 9 (destruct k as [|k]; [vm_compute; lia|]); lia |]).
  destruct H.
Qed.

(** X11.  As the clock advances the status of a call can only go from
    [Valid] to [Expired]: at a later time the status is the same, or it was
    [Valid] and is [Expired].  So a call that is [Expired] stays [Expired],
    a call that is [Valid] is later [Valid] or [Expired] and nothing else,
    a call that is [Valid] was [Valid] before, a call that is [Expired] was
    [Expired] or [Valid] before, and every other status is the same at all
    times, earlier and later. *)
Theorem expiry_monotone (P : Platform) (d : CSankeyLicenseDecoder)
    (mk lic acc : cstr) (now now' : Z) :
  now <= now' ->
  let st t := verify_status (with_time P t) d mk lic acc in
  (st now' = st now \/ (st now = Valid /\ st now' = Expired)) /\
  (st now = Expired -> st now' = Expired) /\
  (st now = Valid -> st now' = Valid \/ st now' = Expired) /\
  (st now' = Valid -> st now = Valid) /\
  (st now' = Expired -> st now = Expired \/ st now = Valid) /\
  (st now <> Valid -> st now <> Expired -> st now' = st now) /\
  (st now' <> Valid -> st now' <> Expired -> st now = st now').
Proof.
  intros Hle st.
  assert (Main : st now' = st now \/ (st now = Valid /\ st now' = Expired)).
  { subst st. cbv beta.
    assert (N : forall Q, mk = None \/ lic = None \/ acc = None ->
                          verify_status Q d mk lic acc = Invalid)
      by (intros Q; apply verify_status_null).
    destruct mk as [m|];
      [|rewrite (N (with_time P now)), (N (with_time P now')) by tauto;
        left; reflexivity].
    destruct lic as [l|];
      [|rewrite (N (with_time P now)), (N (with_time P now')) by tauto;
        left; reflexivity].
    destruct acc as [a|];
      [|rewrite (N (with_time P now)), (N (with_time P now')) by tauto;
        left; reflexivity].
    clear N.
    rewrite !verify_status_tree. cbn [with_time crypt_string_to_binary
      crypt_hmac_sha256 crypt_aes256_cbc_decrypt json_parse].
    tree_leaves; try (left; reflexivity); try (right; split; reflexivity);
      exfalso;
      repeat match goal with
        | H : expired_at _ _ = true |- _ =>
            apply expired_at_true_iff in H; destruct H as (? & ? & ?)
        | H : expired_at _ _ = false |- _ =>
            pose proof (proj1 (expired_at_false_iff _ _) H); clear H
        end;
      cbn [with_time time_now] in *;
      repeat match goal with
        | H : forall s, string_at ?j _ = Some s -> _,
          E : string_at ?j _ = Some _ |- _ => specialize (H _ E)
        end; lia. }
  destruct Main as [E | [E1 E2]].
  - rewrite E. split; [left; reflexivity|].
    split; [tauto|]. split; [tauto|]. split; [tauto|].
    split; [tauto|]. split; [reflexivity|]. reflexivity.
  - rewrite E1, E2. split; [right; split; reflexivity|].
    split; [discriminate|]. split; [right; reflexivity|].
    split; [discriminate|]. split; [right; reflexivity|].
    split; [congruence|]. congruence.
Qed.

Lemma expiry_monotone_witness :
  verify_status (with_time Demo.platform 999999999) new_decoder
    (Some Demo.masterKeyB64) (Some Demo.license_2001) (Some "1234") = Valid /\
  verify_status (with_time Demo.platform 1000000001) new_decoder
    (Some Demo.masterKeyB64) (Some Demo.license_2001) (Some "1234") = Expired /\
  verify_status (with_time Demo.platform 4000000000) new_decoder
    (Some Demo.masterKeyB64) (Some Demo.license_2001) (Some "1234") = Expired.
Proof.
  split; [vm_compute; reflexivity|].
  split; [vm_compute; reflexivity|].
  destruct (expiry_monotone Demo.platform new_decoder
              (Some Demo.masterKeyB64) (Some Demo.license_2001)
              (Some "1234") 1000000001 4000000000) as (_ & H & _);
    [lia|].
  apply H. vm_compute. reflexivity.
Defined.

(* ------------------------------------------------------------------ *)
(** ** The getters *)

Example samples_verify :
  verify_status Demo.platform new_decoder (Some Demo.masterKeyB64)
    (Some Samples.license_scalar) (Some "1234") = Valid /\
  Samples.mixed_object =
    mk_decoder
      (Jobject [("accountId", Jstring "1234"); ("revoked", Jnull);
                ("seats", Jnumber_unsigned 4294967301);
                ("level", Jnumber_unsigned 7);
                ("quota", Jstring "4294967301");
                ("expiry", Jstring "2099-01-01T00:00:00Z")])
      true "".
Proof. split; vm_compute; reflexivity. Qed.

Lemma wrap_signed_32_range (z : Z) : - 2 ^ 31 <= wrap_signed 32 z < 2 ^ 31.
Proof.
  unfold wrap_signed. change (2 ^ (32 - 1)) with 2147483648.
  change (2 ^ 32) with 4294967296. change (2 ^ 31) with 2147483648.
  pose proof (Z.mod_pos_bound (z + 2147483648) 4294967296). lia.
Qed.

Lemma wrap_signed_32_congruent (z : Z) :
  exists k, wrap_signed 32 z = z + k * 2 ^ 32.
Proof.
  unfold wrap_signed. change (2 ^ (32 - 1)) with 2147483648.
  change (2 ^ 32) with 4294967296.
  exists (- ((z + 2147483648) / 4294967296)).
  pose proof (Z.div_mod (z + 2147483648) 4294967296). lia.
Qed.

Lemma stoi_range (s : string) (n : Z) :
  StdString.stoi s = Some n -> INT_MIN <= n <= INT_MAX.
Proof.
  unfold StdString.stoi.
  destruct (match StdString.skip_space s with
            | String "-" s' => (true, s')
            | String "+" s' => (false, s')
            | _ => (false, StdString.skip_space s)
            end) as [neg rest].
  destruct (StdString.digits 0 0 rest) as [v cnt].
  destruct (Nat.eqb cnt 0); [discriminate|].
  destruct ((INT_MIN <=? (if neg then - v else v))
            && ((if neg then - v else v) <=? INT_MAX)) eqn:E; [|discriminate].
  intros H. injection H as <-.
  apply andb_true_iff in E. destruct E as [E1 E2].
  apply Z.leb_le in E1, E2. split; assumption.
Qed.

Lemma at_key_not_object (j : json) (key : string) :
  (forall members, j <> Jobject members) ->
  Json.at_key j key = None /\ Json.contains j key = false.
Proof.
  intros H. destruct j; try (split; reflexivity).
  exfalso. apply (H m). reflexivity.
Qed.

(** Every getter on an object whose payload has nothing under [key]. *)
Lemma getters_without_key (P : Platform) (d : CSankeyLicenseDecoder)
    (key : string) :
  Json.at_key (payload_ d) key = None ->
  (forall dflt, getValue d (Some key) dflt = default_string dflt) /\
  (forall dflt, getValueAsInt d (Some key) dflt = dflt) /\
  (forall dflt, getValueAsBool d (Some key) dflt = dflt) /\
  (forall dflt, getValueAsDouble P d (Some key) dflt = dflt) /\
  (forall dflt, getValueAsDateTime d (Some key) dflt = dflt) /\
  hasKey d (Some key) = false.
Proof.
  intros H.
  unfold getValue, getValueAsInt, getValueAsBool, getValueAsDouble,
    getValueAsDateTime, hasKey, string_at, Json.contains.
  unfold Json.at_key in *.
  destruct (isVerified_ d); destruct (payload_ d); try rewrite H;
    repeat split; reflexivity.
Qed.

(** X12.  A licence whose plaintext is valid JSON but not an object - a
    number, a string, an array - verifies as [Valid] at any time, and the
    verified object then has no key: every getter returns the default and
    [hasKey] is false for every key. *)
Theorem scalar_payload_exposes_nothing (P : Platform)
    (d : CSankeyLicenseDecoder) (m l a : string) (j : json) :
  reaches_expiry_check P m l a j ->
  (forall members, j <> Jobject members) ->
  verify_status P d (Some m) (Some l) (Some a) = Valid /\
  isVerified_ (verify_object P d (Some m) (Some l) (Some a)) = true /\
  forall key : string,
    let d' := verify_object P d (Some m) (Some l) (Some a) in
    (forall dflt, getValue d' (Some key) dflt = default_string dflt) /\
    (forall dflt, getValueAsInt d' (Some key) dflt = dflt) /\
    (forall dflt, getValueAsBool d' (Some key) dflt = dflt) /\
    (forall dflt, getValueAsDouble P d' (Some key) dflt = dflt) /\
    (forall dflt, getValueAsDateTime d' (Some key) dflt = dflt) /\
    hasKey d' (Some key) = false.
Proof.
  intros Hreach Hj.
  destruct (verify_at_expiry_check P d m l a j Hreach) as [-> ->].
  assert (E : expired_at P j = false).
  { unfold expired_at, string_at.
    destruct (at_key_not_object j "expiry" Hj) as [-> _]. reflexivity. }
  rewrite E. split; [reflexivity|]. split; [reflexivity|].
  intros key d'. subst d'. apply getters_without_key. cbn [payload_].
  apply at_key_not_object. exact Hj.
Qed.

Lemma scalar_payload_witness :
  verify_status Demo.platform new_decoder (Some Demo.masterKeyB64)
    (Some Samples.license_scalar) (Some "1234") = Valid /\
  hasKey (verify_object Demo.platform new_decoder (Some Demo.masterKeyB64)
            (Some Samples.license_scalar) (Some "1234"))
    (Some "accountId") = false.
Proof.
  edestruct (scalar_payload_exposes_nothing Demo.platform new_decoder
               Demo.masterKeyB64 Samples.license_scalar "1234")
    as (HV & _ & HG).
  - demo_reaches.
  - intros members. discriminate.
  - split; [exact HV|]. apply (HG "accountId").
Defined.

(** X13.  [hasKey] is true exactly when the object is verified, the key is
    not null and the payload has a member of that name, whatever its value;
    and whenever [hasKey] is false every getter returns the default for
    that key. *)
Theorem hasKey_iff (P : Platform) (d : CSankeyLicenseDecoder) (key : cstr) :
  (hasKey d key = true <->
   isVerified_ d = true /\
   exists k v, key = Some k /\ Json.at_key (payload_ d) k = Some v) /\
  (hasKey d key = false ->
   (forall dflt, getValue d key dflt = default_string dflt) /\
   (forall dflt, getValueAsInt d key dflt = dflt) /\
   (forall dflt, getValueAsBool d key dflt = dflt) /\
   (forall dflt, getValueAsDouble P d key dflt = dflt) /\
   (forall dflt, getValueAsDateTime d key dflt = dflt)).
Proof.
  split.
  - unfold hasKey. destruct (isVerified_ d); destruct key as [k|].
    + rewrite contains_at_key. split.
      * intros (v & Hv). split; [reflexivity|]. exists k, v. tauto.
      * intros (_ & k' & v & E & Hv). injection E as <-. exists v. exact Hv.
    + split; [discriminate | intros (_ & k & v & E & _); discriminate].
    + split; [discriminate | intros (E & _); discriminate].
    + split; [discriminate | intros (E & _); discriminate].
  - intros H.
    destruct (isVerified_ d) eqn:V.
    + destruct key as [k|].
      * assert (N : Json.at_key (payload_ d) k = None).
        { unfold hasKey in H. rewrite V in H.
          destruct (Json.at_key (payload_ d) k) as [v|] eqn:E; [|reflexivity].
          assert (C : Json.contains (payload_ d) k = true)
            by (apply contains_at_key; exists v; exact E).
          congruence. }
        destruct (getters_without_key P d k N) as (A & B & C & D & E & _).
        repeat split; assumption.
      * unfold getValue, getValueAsInt, getValueAsBool, getValueAsDouble,
          getValueAsDateTime. rewrite V. repeat split; reflexivity.
    + destruct (getters_gated P d V key) as (A & B & C & D & E & _).
      repeat split; assumption.
Qed.

(** X14.  A member whose value is null, an array or a nested object is
    there for [hasKey] and for no getter: on a verified object [hasKey] is
    true for it and all five getters return the default. *)
Theorem structured_values_not_exposed (P : Platform)
    (d : CSankeyLicenseDecoder) (key : string) (v : json) :
  isVerified_ d = true ->
  Json.at_key (payload_ d) key = Some v ->
  (v = Jnull \/ (exists l, v = Jarray l) \/ (exists m, v = Jobject m)) ->
  hasKey d (Some key) = true /\
  (forall dflt, getValue d (Some key) dflt = default_string dflt) /\
  (forall dflt, getValueAsInt d (Some key) dflt = dflt) /\
  (forall dflt, getValueAsBool d (Some key) dflt = dflt) /\
  (forall dflt, getValueAsDouble P d (Some key) dflt = dflt) /\
  (forall dflt, getValueAsDateTime d (Some key) dflt = dflt).
Proof.
  intros V Hk Hv.
  assert (C : Json.contains (payload_ d) key = true)
    by (apply contains_at_key; exists v; exact Hk).
  unfold hasKey, getValue, getValueAsInt, getValueAsBool, getValueAsDouble,
    getValueAsDateTime, string_at.
  rewrite V, Hk, C.
  destruct Hv as [-> | [[l ->] | [m ->]]]; repeat split; reflexivity.
Qed.

Lemma structured_values_witness :
  hasKey Samples.mixed_object (Some "revoked") = true /\
  getValue Samples.mixed_object (Some "revoked") (Some "no") = "no" /\
  getValueAsBool Samples.mixed_object (Some "revoked") true = true.
Proof.
  destruct (structured_values_not_exposed Demo.platform Samples.mixed_object
              "revoked" Jnull) as (H & G & _ & B & _).
  - vm_compute. reflexivity.
  - vm_compute. reflexivity.
  - left. reflexivity.
  - split; [exact H|]. split; [apply (G (Some "no")) | apply (B true)].
Defined.

(** X15.  A getter result that differs from the default always comes out
    of a verified payload that has the key, and from a value of a kind the
    getter reads: [getValue] returns the stored string itself and only for
    a string (numbers are not turned into text); [getValueAsInt] reads
    integers and strings, [getValueAsBool] booleans, strings and numbers,
    [getValueAsDouble] numbers and strings; [getValueAsDateTime] reads a
    string and returns what [parseISODateTime] makes of it, a value between
    1 and 2^31 - 1. *)
Theorem getters_sound (P : Platform) (d : CSankeyLicenseDecoder)
    (key : cstr) :
  (forall dflt,
     getValue d key dflt <> default_string dflt ->
     isVerified_ d = true /\
     exists k, key = Some k /\
       Json.at_key (payload_ d) k = Some (Jstring (getValue d key dflt))) /\
  (forall dflt,
     getValueAsInt d key dflt <> dflt ->
     isVerified_ d = true /\
     exists k v, key = Some k /\ Json.at_key (payload_ d) k = Some v /\
       (Json.is_number_integer v = true \/ Json.is_string v = true)) /\
  (forall dflt,
     getValueAsBool d key dflt <> dflt ->
     isVerified_ d = true /\
     exists k v, key = Some k /\ Json.at_key (payload_ d) k = Some v /\
       (Json.is_boolean v = true \/ Json.is_string v = true \/
        Json.is_number v = true)) /\
  (forall dflt,
     getValueAsDouble P d key dflt <> dflt ->
     isVerified_ d = true /\
     exists k v, key = Some k /\ Json.at_key (payload_ d) k = Some v /\
       (Json.is_number v = true \/ Json.is_string v = true)) /\
  (forall dflt,
     getValueAsDateTime d key dflt <> dflt ->
     isVerified_ d = true /\
     exists k s, key = Some k /\
       Json.at_key (payload_ d) k = Some (Jstring s) /\
       getValueAsDateTime d key dflt = parseISODateTime s /\
       0 < parseISODateTime s < 2 ^ 31).
Proof.
  unfold getValue, getValueAsInt, getValueAsBool, getValueAsDouble,
    getValueAsDateTime, string_at.
  destruct (isVerified_ d);
    [|(split; [|split; [|split; [|split]]]);
      intros dflt H; exfalso; apply H; reflexivity].
  destruct key as [k|];
    [|(split; [|split; [|split; [|split]]]);
      intros dflt H; exfalso; apply H; reflexivity].
  destruct (Json.at_key (payload_ d) k) as [v|] eqn:E;
    [|(split; [|split; [|split; [|split]]]);
      intros dflt H; exfalso; apply H; reflexivity].
  split; [|split; [|split; [|split]]]; intros dflt H;
    (split; [reflexivity|]).
  - exists k. split; [reflexivity|].
    destruct v; try (exfalso; apply H; reflexivity). exact E.
  - exists k, v. split; [reflexivity|]. split; [exact E|].
    destruct v; try (exfalso; apply H; reflexivity); cbn; tauto.
  - exists k, v. split; [reflexivity|]. split; [exact E|].
    destruct v; try (exfalso; apply H; reflexivity); cbn; tauto.
  - exists k, v. split; [reflexivity|]. split; [exact E|].
    destruct v; try (exfalso; apply H; reflexivity); cbn; tauto.
  - destruct v; try (exfalso; apply H; reflexivity).
    exists k, s. split; [reflexivity|]. split; [exact E|].
    destruct (0 <? parseISODateTime s) eqn:E';
      [|exfalso; apply H; reflexivity].
    apply Z.ltb_lt in E'. split; [reflexivity|]. split; [exact E'|].
    unfold parseISODateTime.
    destruct (GetTime.get_time s) as [[t rest]|]; [|reflexivity].
    apply wrap_signed_32_range.
Qed.

(** X16.  On a verified object, for a key the payload has:
    [getValueAsInt] reads an integer number reduced to 32 bits (a value
    that fits an [int] is returned as it is, a larger one wraps around
    silently); for a string it returns what [std::stoi] reads, within the
    [int] range, or the default when [std::stoi] throws (no digits, or out
    of range); a floating-point number, a boolean, null, an array or an
    object give the default. *)
Theorem int_coercion (d : CSankeyLicenseDecoder) (key : string)
    (dflt : Z) (v : json) :
  isVerified_ d = true ->
  Json.at_key (payload_ d) key = Some v ->
  let r := getValueAsInt d (Some key) dflt in
  match v with
  | Jnumber_integer z | Jnumber_unsigned z =>
      INT_MIN <= r <= INT_MAX /\ (exists k, r = z + k * 2 ^ 32) /\
      (INT_MIN <= z <= INT_MAX -> r = z)
  | Jstring s =>
      (StdString.stoi s = None -> r = dflt) /\
      (forall n, StdString.stoi s = Some n ->
                 r = n /\ INT_MIN <= n <= INT_MAX)
  | Jnumber_float _ | Jboolean _ | Jnull | Jarray _ | Jobject _ => r = dflt
  end.
Proof.
  intros V Hk r. subst r. unfold getValueAsInt. rewrite V, Hk.
  assert (I : forall z,
             INT_MIN <= to_int z <= INT_MAX /\
             (exists k, to_int z = z + k * 2 ^ 32) /\
             (INT_MIN <= z <= INT_MAX -> to_int z = z)).
  { intros z. unfold to_int, INT_MIN, INT_MAX.
    pose proof (wrap_signed_32_range z). split; [lia|].
    split; [apply wrap_signed_32_congruent|].
    intros Hz. apply wrap_signed_small; simpl; lia. }
  destruct v; try reflexivity; try apply I.
  split.
  - intros ->. reflexivity.
  - intros n E. rewrite E. split; [reflexivity | exact (stoi_range s n E)].
Qed.

(** On the mixed licence: 4294967301 stored as a number reads as 5, stored
    as a string it gives the default, and 7 reads as 7. *)
Lemma int_coercion_witness :
  getValueAsInt Samples.mixed_object (Some "seats") (-1) = 5 /\
  getValueAsInt Samples.mixed_object (Some "quota") (-1) = -1 /\
  getValueAsInt Samples.mixed_object (Some "level") (-1) = 7.
Proof.
  split; [|split].
  - destruct (int_coercion Samples.mixed_object "seats" (-1)
                (Jnumber_unsigned 4294967301)) as (R & (k & E) & _);
      [vm_compute; reflexivity | vm_compute; reflexivity |].
    unfold INT_MIN, INT_MAX in R. change (2 ^ 32) with 4294967296 in E.
    change (2 ^ 31) with 2147483648 in R. lia.
  - destruct (int_coercion Samples.mixed_object "quota" (-1)
                (Jstring "4294967301")) as (N & _);
      [vm_compute; reflexivity | vm_compute; reflexivity |].
    apply N. vm_compute. reflexivity.
  - destruct (int_coercion Samples.mixed_object "level" (-1)
                (Jnumber_unsigned 7)) as (_ & _ & E);
      [vm_compute; reflexivity | vm_compute; reflexivity |].
    apply E. unfold INT_MIN, INT_MAX. change (2 ^ 31) with 2147483648. lia.
Defined.

(* ------------------------------------------------------------------ *)
(** ** More on the date parser *)

Lemma get_int_two_digits_none (n lo hi : Z) (rest : string) :
  0 <= n <= 99 -> ~ (lo <= n <= hi) ->
  GetTime.get_int 2 lo hi (IsoPattern.two_digits n rest) = None.
Proof.
  intros Hn Hr. unfold GetTime.get_int. rewrite read_two_digits by exact Hn.
  cbn [Nat.eqb]. replace (0 * 100 + n) with n by lia.
  destruct (Z.leb_spec lo n); destruct (Z.leb_spec n hi);
    try reflexivity. lia.
Qed.

(** Reads one two-digit field of an unfolded [get_time]: on to the next
    field when the value is in range, failure when it is not. *)
Ltac read_field n lo hi :=
  destruct (Z_le_dec lo n);
    [destruct (Z_le_dec n hi)|];
    [ rewrite (get_int_two_digits n lo hi) by lia; next_field
    | rewrite (get_int_two_digits_none n lo hi) by lia; reflexivity
    | rewrite (get_int_two_digits_none n lo hi) by lia; reflexivity ].

(** X17.  A timestamp of the right shape with a field outside its range -
    month 0 or above 12, day 0 or above 31, hour above 23, minute above 59,
    second above 60 - is not parsed: [parseISODateTime] returns 0, the value
    [verify] and [getValueAsDateTime] take for "no date". *)
Theorem parseISODateTime_field_out_of_range (Y m d H M S : Z)
    (rest : string) :
  0 <= Y <= 9999 -> 0 <= m <= 99 -> 0 <= d <= 99 ->
  0 <= H <= 99 -> 0 <= M <= 99 -> 0 <= S <= 99 ->
  m = 0 \/ 12 < m \/ d = 0 \/ 31 < d \/ 23 < H \/ 59 < M \/ 60 < S ->
  parseISODateTime (IsoPattern.iso_text Y m d H M S rest) = 0.
Proof.
  intros HY Hm Hd HH HM HS Hout.
  unfold parseISODateTime, GetTime.get_time, IsoPattern.iso_text.
  rewrite skip_ws_four_digits by exact HY. cbv zeta.
  rewrite get_int_four_digits by exact HY. next_field.
  read_field m 1 12. read_field d 1 31. read_field H 0 23.
  read_field M 0 59. read_field S 0 60. lia.
Qed.

Lemma parseISODateTime_out_of_range_witness :
  parseISODateTime "2025-13-01T00:00:00Z" = 0 /\
  parseISODateTime "2025-12-31T24:00:00Z" = 0.
Proof.
  split.
  - change "2025-13-01T00:00:00Z"
      with (IsoPattern.iso_text 2025 13 1 0 0 0 "Z").
    apply parseISODateTime_field_out_of_range; lia.
  - change "2025-12-31T24:00:00Z"
      with (IsoPattern.iso_text 2025 12 31 24 0 0 "Z").
    apply parseISODateTime_field_out_of_range; lia.
Defined.

Lemma to_long_wraps_once (r : Z) :
  2 ^ 31 <= r < 3 * 2 ^ 31 -> to_long r = r - 2 ^ 32.
Proof.
  unfold to_long, wrap_signed. change (2 ^ (32 - 1)) with 2147483648.
  change (2 ^ 32) with 4294967296. change (2 ^ 31) with 2147483648.
  intros H.
  rewrite <- (Z.mod_unique (r + 2147483648) 4294967296 1
                (r - 2147483648)) by lia.
  lia.
Qed.

(** X18.  The timestamp is cast to a 32-bit [long], so a date past
    2038-01-19T03:14:07Z does not keep its value: up to 2^32 + 2^31 - 1
    seconds after the epoch [parseISODateTime] returns the seconds minus
    2^32.  Below 2^32 (until 2106) that is negative: such an [expiry] never
    expires the licence and [getValueAsDateTime] returns the default for
    it.  From 2^32 on it is a small positive number, and a call reaching
    the expiry check is [Expired] as soon as the clock is past that number,
    long before the date written in the licence. *)
Theorem timestamps_past_2038 (Y m d H M S : Z) (rest : string) :
  0 <= Y <= 9999 -> 1 <= m <= 12 -> 1 <= d <= 31 ->
  0 <= H <= 23 -> 0 <= M <= 59 -> 0 <= S <= 60 ->
  let secs := MkGmTime.epoch_seconds (mk_tm S M H d (m - 1) (Y - 1900)) in
  let text := IsoPattern.iso_text Y m d H M S rest in
  2 ^ 31 <= secs < 3 * 2 ^ 31 ->
  parseISODateTime text = secs - 2 ^ 32 /\
  (secs < 2 ^ 32 ->
   (forall d0 key dflt,
      Json.at_key (payload_ d0) key = Some (Jstring text) ->
      getValueAsDateTime d0 (Some key) dflt = dflt) /\
   (forall P d0 mk lic acc j now,
      reaches_expiry_check P mk lic acc j ->
      Json.at_key j "expiry" = Some (Jstring text) ->
      verify_status (with_time P now) d0 (Some mk) (Some lic) (Some acc)
        = Valid)) /\
  (2 ^ 32 < secs ->
   forall P d0 mk lic acc j,
     reaches_expiry_check P mk lic acc j ->
     Json.at_key j "expiry" = Some (Jstring text) ->
     secs - 2 ^ 32 < time_now P ->
     verify_status P d0 (Some mk) (Some lic) (Some acc) = Expired).
Proof.
  intros HY Hm Hd HH HM HS secs text Hsecs.
  assert (E : parseISODateTime text = secs - 2 ^ 32).
  { unfold text, parseISODateTime.
    rewrite (get_time_iso_text Y m d H M S rest HY Hm Hd HH HM HS).
    fold secs. unfold MkGmTime._mkgmtime. fold secs.
    change (2 ^ 31) with 2147483648 in Hsecs.
    destruct (Z.leb_spec 0 secs); [|lia].
    destruct (Z.leb_spec secs MkGmTime.MAX_TIME64);
      [|unfold MkGmTime.MAX_TIME64 in *; lia].
    cbn [andb]. apply to_long_wraps_once.
    change (2 ^ 31) with 2147483648. lia. }
  split; [exact E|]. split.
  - intros Hlt. split.
    + intros d0 key dflt Hk. unfold getValueAsDateTime, string_at.
      rewrite Hk, E.
      assert (N : (0 <? secs - 2 ^ 32) = false) by (apply Z.ltb_ge; lia).
      rewrite N. destruct (isVerified_ d0); reflexivity.
    + intros P d0 mk lic acc j now Hreach Hk.
      apply (verify_without_expiry P d0 mk lic acc j Hreach).
      right. right. exists text. split; [exact Hk | rewrite E; lia].
  - intros Hgt P d0 mk lic acc j Hreach Hk Hnow.
    destruct (verify_at_expiry_check P d0 mk lic acc j Hreach) as [-> _].
    unfold expired_at, string_at. rewrite Hk, E.
    assert (A : (0 <? secs - 2 ^ 32) = true) by (apply Z.ltb_lt; lia).
    assert (B : (secs - 2 ^ 32 <? time_now P) = true)
      by (apply Z.ltb_lt; exact Hnow).
    rewrite A, B. reflexivity.
Qed.

(** 2099-01-01 reads as a negative number and the mixed licence, whose
    expiry it is, is valid with the clock in 2103; 2110-01-01 reads as a
    day in 1973. *)
Lemma timestamps_past_2038_witness :
  parseISODateTime "2099-01-01T00:00:00Z" = -224058496 /\
  verify_status (with_time Demo.platform 4200000000) new_decoder
    (Some Demo.masterKeyB64) (Some Samples.license_mixed) (Some "1234")
    = Valid /\
  parseISODateTime "2110-01-01T00:00:00Z" = 123010304.
Proof.
  change "2099-01-01T00:00:00Z"
    with (IsoPattern.iso_text 2099 1 1 0 0 0 "Z").
  change "2110-01-01T00:00:00Z"
    with (IsoPattern.iso_text 2110 1 1 0 0 0 "Z").
  destruct (timestamps_past_2038 2099 1 1 0 0 0 "Z")
    as (E & N & _); try lia; [vm_compute; split; [discriminate | reflexivity]|].
  destruct (timestamps_past_2038 2110 1 1 0 0 0 "Z")
    as (E' & _ & _); try lia; [vm_compute; split; [discriminate | reflexivity]|].
  split; [rewrite E; vm_compute; reflexivity|].
  split; [|rewrite E'; vm_compute; reflexivity].
  destruct N as [_ N]; [vm_compute; reflexivity|].
  eapply N.
  - demo_reaches.
  - vm_compute. reflexivity.
Defined.

(* ------------------------------------------------------------------ *)
(** ** The exported C functions *)

Lemma LicenseStatus_code_inj (a b : LicenseStatus) :
  LicenseStatus_code a = LicenseStatus_code b -> a = b.
Proof. destruct a, b; simpl; intros H; try reflexivity; discriminate H. Qed.

(** X19.  [Verify] returns one of the seven codes 0 .. 6; it returns 0
    exactly when the handle is not null and the method returned [Valid];
    a null handle gives 2 ([Invalid]); and after any non-zero code every
    exported getter called on that handle returns its default and [HasKey]
    returns false. *)
Theorem c_verify_gate (P : Platform) (h : CInterface.handle)
    (mk lic acc : cstr) :
  let code := fst (CInterface.Verify P h mk lic acc) in
  let h' := snd (CInterface.Verify P h mk lic acc) in
  0 <= code <= 6 /\
  (code = 0 <->
   exists d, h = Some d /\ verify_status P d mk lic acc = Valid) /\
  (h = None -> code = 2 /\ h' = None) /\
  (code <> 0 ->
   forall key : cstr,
     (forall dflt, fst (CInterface.GetValue h' key dflt)
                   = default_string dflt) /\
     (forall dflt, CInterface.GetValueAsInt h' key dflt = dflt) /\
     (forall dflt, CInterface.GetValueAsBool h' key dflt = dflt) /\
     (forall dflt, CInterface.GetValueAsDouble P h' key dflt = dflt) /\
     (forall dflt, CInterface.GetValueAsDateTime h' key dflt = dflt) /\
     CInterface.HasKey h' key = false).
Proof.
  intros code h'. subst code h'. unfold CInterface.Verify.
  destruct h as [d|]; cbn [fst snd].
  - split; [destruct (verify_status P d mk lic acc); simpl; lia|].
    split; [|split; [discriminate|]].
    + split.
      * intros H. exists d. split; [reflexivity|].
        apply LicenseStatus_code_inj. exact H.
      * intros (d' & E & H). injection E as <-. rewrite H. reflexivity.
    + intros Hc key.
      unfold CInterface.GetValue, CInterface.GetValueAsInt,
        CInterface.GetValueAsBool, CInterface.GetValueAsDouble,
        CInterface.GetValueAsDateTime, CInterface.HasKey. cbn [fst].
      apply getters_gated.
      destruct (isVerified_ (verify_object P d mk lic acc)) eqn:V;
        [|reflexivity].
      apply verify_flag_iff_Valid in V. rewrite V in Hc.
      exfalso. apply Hc. reflexivity.
  - split; [simpl; lia|]. split; [|split].
    + split; [discriminate | intros (d & E & _); discriminate].
    + intros _. split; reflexivity.
    + intros _ key. repeat split.
Qed.

(** X20.  [GetValue] returns what the method returns and keeps the string
    in the object; that is its only effect: every later call through the
    handle - any getter, [HasKey], [Verify] - answers as it would have
    without it. *)
Theorem c_getvalue_cache (P : Platform) (h : CInterface.handle)
    (key dflt : cstr) :
  let r := fst (CInterface.GetValue h key dflt) in
  let h' := snd (CInterface.GetValue h key dflt) in
  (forall d, h = Some d ->
     r = getValue d key dflt /\
     h' = Some (mk_decoder (payload_ d) (isVerified_ d) r)) /\
  (h = None -> h' = None /\ r = default_string dflt) /\
  (forall k2 d2,
     fst (CInterface.GetValue h' k2 d2) = fst (CInterface.GetValue h k2 d2)) /\
  (forall k2 d2,
     CInterface.GetValueAsInt h' k2 d2 = CInterface.GetValueAsInt h k2 d2) /\
  (forall k2 d2,
     CInterface.GetValueAsBool h' k2 d2 = CInterface.GetValueAsBool h k2 d2) /\
  (forall k2 d2,
     CInterface.GetValueAsDouble P h' k2 d2
       = CInterface.GetValueAsDouble P h k2 d2) /\
  (forall k2 d2,
     CInterface.GetValueAsDateTime h' k2 d2
       = CInterface.GetValueAsDateTime h k2 d2) /\
  (forall k2, CInterface.HasKey h' k2 = CInterface.HasKey h k2) /\
  (forall a b c,
     fst (CInterface.Verify P h' a b c) = fst (CInterface.Verify P h a b c)).
Proof.
  intros r h'. subst r h'. unfold CInterface.GetValue.
  destruct h as [d|]; cbn [fst snd].
  - split; [intros d' E; injection E as <-; split; reflexivity|].
    split; [discriminate|].
    repeat (split; [intros; reflexivity|]).
    intros a b c. unfold CInterface.Verify. cbn [fst]. f_equal.
    apply verify_independent_of_object.
  - split; [discriminate|]. split; [intros _; split; reflexivity|].
    repeat (split; [intros; reflexivity|]). intros; reflexivity.
Qed.
